(** * HappyStore: an embedded ordered key-value store backed by SQLite

    Shallow embedding of [happystore.py]: the shipped serializers, the
    private engine class [_SqlLiteHappyStore] (point and bulk operations,
    range and prefix [query], the paginated [scan] generator, the nestable
    [transaction] context manager) and the public [HappyStore] facade.

    The engine talks to SQLite only through SQL text.  The part of SQLite
    that those statements exercise is modelled in [Module Sqlite]: one
    table [database(key TEXT PRIMARY KEY, value BLOB)], the transaction
    stack with named savepoints, comparison of TEXT under the default
    BINARY collation, the default (case-insensitive, unescaped) LIKE, and
    the limits on the parameters of a statement.

    The model follows one thread of control, so acquiring the re-entrant
    lock [_txn_rlock] is a no-op and is left out. *)

From stdpp Require Import gmap strings list sorting.
From Stdlib Require Import ZArith.

(** ** Python values, exceptions and results *)

(** A Python [str] is represented by its UTF-8 encoding and a Python
    [bytes] by its bytes; both are Rocq byte strings.  [String.le] is the
    byte-wise lexicographic order, which is how SQLite compares TEXT under
    the BINARY collation. *)
Abbreviation table := (gmap string string).

Inductive pytype := TNoneType | TInt | TStr | TBytes | TType.

Global Instance pytype_eq_dec : EqDecision pytype.
Proof. solve_decision. Defined.

Inductive pyobj :=
| PyNone
| PyInt (z : Z)
| PyStr (s : string)
| PyBytes (b : string)
| PyClass (t : pytype).   (* a class object such as the builtin [bytes] *)

Definition type_of (o : pyobj) : pytype :=
  match o with
  | PyNone => TNoneType
  | PyInt _ => TInt
  | PyStr _ => TStr
  | PyBytes _ => TBytes
  | PyClass _ => TType
  end.

(** The builtin name [bytes]. *)
Definition builtin_bytes : pyobj := PyClass TBytes.

Inductive exn :=
| AbortionError
| SerializationError
| DeserializationError
| LookupError (key : string)
| OperationalError (msg : string)      (* sqlite3.OperationalError *)
| UnboundLocalError (name : string)
| NameError (name : string)
| TypeError (msg : string)
| IndexError
| OverflowError
| RuntimeError (msg : string)
| UserException (tag : string)         (* any other subclass of Exception *)
| KeyboardInterrupt.                   (* a BaseException outside Exception *)

Global Instance exn_eq_dec : EqDecision exn.
Proof. solve_decision. Defined.

(** [except AbortionError] and [except Exception]. *)
Definition is_AbortionError (e : exn) : bool :=
  match e with AbortionError => true | _ => false end.

Definition is_Exception (e : exn) : bool :=
  match e with KeyboardInterrupt => false | _ => true end.

Inductive result (A : Type) :=
| Ok (a : A)
| Raise (e : exn).
Global Arguments Ok {A} a.
Global Arguments Raise {A} e.

Global Instance result_ret : MRet result := λ A a, Ok a.
Global Instance result_bind : MBind result := λ A B f r,
  match r with Ok a => f a | Raise e => Raise e end.

(** [try: r  except Exception: raise e'] *)
Definition except_Exception_raise {A} (r : result A) (e' : exn) : result A :=
  match r with
  | Ok a => Ok a
  | Raise e => if is_Exception e then Raise e' else Raise e
  end.

(** ** Serializers *)

(** The abstract base class [Serializer]: [serialize] returns bytes,
    [deserialize] takes whatever object the engine hands it. *)
Record Serializer := {
  serialize : pyobj → result string;
  deserialize : pyobj → result pyobj
}.

(** [PickleSerializer(pickler_factory, unpickler_factory)].  The two
    factories are constructor arguments; [pickler_factory] stands for
    "build a pickler on a BytesIO, dump, take the buffer" and
    [unpickler_factory] for "build an unpickler on the bytes, load". *)
Definition PickleSerializer
    (pickler_factory : pyobj → result string)
    (unpickler_factory : pyobj → result pyobj) : Serializer := {|
  serialize value :=
    except_Exception_raise (pickler_factory value) SerializationError;
  deserialize bytess :=
    except_Exception_raise (unpickler_factory bytess) DeserializationError
|}.

(** [JsonSerializer].  The module imports abc, contextlib, io, pickle,
    threading and sqlite3; the name [json] is never bound, so evaluating
    [json.dumps] or [json.loads] raises NameError inside the [try]. *)
Definition unbound_json {A} : result A := Raise (NameError "json").

Definition JsonSerializer : Serializer := {|
  serialize value :=
    except_Exception_raise unbound_json SerializationError;
  deserialize bytess :=
    except_Exception_raise unbound_json DeserializationError
|}.

(** [RawSerializer].  [serialize] tests [type(value) is bytes];
    [deserialize] tests [type(bytes) is bytes], the type of the builtin
    class and not of its argument [bytess], and its first branch returns
    the unbound name [value]. *)
Definition RawSerializer : Serializer := {|
  serialize value :=
    match value with
    | PyBytes b => Ok b
    | _ => Raise SerializationError
    end;
  deserialize bytess :=
    if decide (type_of builtin_bytes = TBytes)
    then Raise (NameError "value")
    else Raise SerializationError
|}.

(** ** The SQLite substrate *)

Module Sqlite.

(** The transaction stack of a connection.  Outside a transaction the
    connection is in autocommit mode.  Inside one it remembers the image
    of the table at the start (for ROLLBACK), whether the transaction
    was opened by a SAVEPOINT issued in autocommit mode rather than by
    BEGIN, and the open savepoints, most recent first, each with the
    image of the table at the time it was set. *)
Inductive txn_state :=
| Autocommit
| InTransaction (by_savepoint : bool) (begin_image : table)
                (savepoints : list (string * table)).

Record connection := Connection {
  rows : table;          (* database(key TEXT PRIMARY KEY, value BLOB) *)
  txn : txn_state
}.

(** Transaction control statements the engine executes. *)
Inductive statement :=
| BEGIN_EXCLUSIVE_TRANSACTION
| COMMIT
| ROLLBACK
| SAVEPOINT (name : string)
| ROLLBACK_TO (name : string)
| RELEASE_SAVEPOINT (name : string).

(** Find the most recent savepoint called [name]: its image and the
    savepoints older than it.  (SQLite compares savepoint names without
    regard to case; the engine only ever uses the name [txn].) *)
Fixpoint find_savepoint (name : string) (sps : list (string * table))
    : option (table * list (string * table)) :=
  match sps with
  | [] => None
  | (n, image) :: older =>
      if decide (n = name) then Some (image, older)
      else find_savepoint name older
  end.

(** Transaction control, as SQLite documents it (lang_transaction,
    lang_savepoint):
    - BEGIN fails inside a transaction; COMMIT and ROLLBACK fail outside.
    - SAVEPOINT pushes a savepoint (and opens a transaction when issued
      in autocommit mode).
    - ROLLBACK TO restores the image of the most recent savepoint of
      that name and cancels the savepoints set after it; the savepoint
      itself stays on the stack.
    - RELEASE removes the most recent savepoint of that name and all
      savepoints set after it, keeping their changes; releasing the
      outermost savepoint of a transaction that a SAVEPOINT opened
      commits. *)
Definition execute (s : statement) (c : connection)
    : result () * connection :=
  match s, txn c with
  | BEGIN_EXCLUSIVE_TRANSACTION, Autocommit =>
      (Ok (), Connection (rows c) (InTransaction false (rows c) []))
  | BEGIN_EXCLUSIVE_TRANSACTION, InTransaction _ _ _ =>
      (Raise (OperationalError
                "cannot start a transaction within a transaction"), c)
  | COMMIT, Autocommit =>
      (Raise (OperationalError "cannot commit - no transaction is active"), c)
  | COMMIT, InTransaction _ _ _ =>
      (Ok (), Connection (rows c) Autocommit)
  | ROLLBACK, Autocommit =>
      (Raise (OperationalError
                "cannot rollback - no transaction is active"), c)
  | ROLLBACK, InTransaction _ begin_image _ =>
      (Ok (), Connection begin_image Autocommit)
  | SAVEPOINT name, Autocommit =>
      (Ok (), Connection (rows c)
                (InTransaction true (rows c) [(name, rows c)]))
  | SAVEPOINT name, InTransaction by_sp begin_image sps =>
      (Ok (), Connection (rows c)
                (InTransaction by_sp begin_image ((name, rows c) :: sps)))
  | ROLLBACK_TO name, Autocommit =>
      (Raise (OperationalError "no such savepoint"), c)
  | ROLLBACK_TO name, InTransaction by_sp begin_image sps =>
      match find_savepoint name sps with
      | None => (Raise (OperationalError "no such savepoint"), c)
      | Some (image, older) =>
          (Ok (), Connection image
                    (InTransaction by_sp begin_image ((name, image) :: older)))
      end
  | RELEASE_SAVEPOINT name, Autocommit =>
      (Raise (OperationalError "no such savepoint"), c)
  | RELEASE_SAVEPOINT name, InTransaction by_sp begin_image sps =>
      match find_savepoint name sps with
      | None => (Raise (OperationalError "no such savepoint"), c)
      | Some (_, older) =>
          (Ok (), Connection (rows c)
                    (match older, by_sp with
                     | [], true => Autocommit
                     | _, _ => InTransaction by_sp begin_image older
                     end))
      end
  end.

(** Python's [sqlite3] module, with [isolation_level='EXCLUSIVE'], opens
    a transaction itself before an INSERT, UPDATE, DELETE or REPLACE
    when none is open. *)
Definition implicit_begin (c : connection) : connection :=
  match txn c with
  | Autocommit => Connection (rows c) (InTransaction false (rows c) [])
  | InTransaction _ _ _ => c
  end.

Definition set_rows (t : table) (c : connection) : connection :=
  Connection t (txn c).

(** *** Limits on the parameters of a statement

    A statement with more [?] in its text than SQLITE_MAX_VARIABLE_NUMBER
    does not compile.  The number is a compile-time option of the
    library: 250000 in the builds that Debian and Ubuntu ship, 32766 in
    SQLite's own default configuration since version 3.32.  The
    properties below name the limit and do not depend on its value beyond
    its being at least 3. *)
Definition MAX_VARIABLE_NUMBER : Z := 250000.

Definition prepare (parameters : nat) : result () :=
  if (MAX_VARIABLE_NUMBER <? Z.of_nat parameters)%Z
  then Raise (OperationalError "too many SQL variables")
  else Ok ().

(** Python's [sqlite3] binds an [int] as a 64-bit INTEGER and raises
    OverflowError for one that does not fit. *)
Definition bind_int (n : Z) : result Z :=
  if ((n <? - 2 ^ 63) || (2 ^ 63 - 1 <? n))%Z
  then Raise OverflowError
  else Ok n.

Definition bind_limit (n : option Z) : result (option Z) :=
  match n with
  | None => Ok None
  | Some n => n ← bind_int n; Ok (Some n)
  end.

(** [REPLACE INTO database VALUES (?, ?), ...], two parameters a row:
    the rows are written in order, each one replacing the row that has
    its key.  With no row at all the statement text ends after VALUES and
    does not parse. *)
Definition replace_into (kvs : list (string * string)) (c : connection)
    : result () * connection :=
  match kvs with
  | [] => (Raise (OperationalError "incomplete input"), c)
  | _ =>
      match prepare (2 * length kvs) with
      | Raise e => (Raise e, c)
      | Ok _ =>
          let c := implicit_begin c in
          (Ok (),
           set_rows (foldl (λ t kv, <[kv.1 := kv.2]> t) (rows c) kvs) c)
      end
  end.

(** [DELETE FROM database WHERE key = ?], with the cursor's rowcount. *)
Definition delete_where_key (key : string) (c : connection)
    : Z * connection :=
  let c := implicit_begin c in
  ((if rows c !! key is Some _ then 1 else 0)%Z, set_rows (delete key (rows c)) c).

(** [DELETE FROM database WHERE key IN (?, ..., ?)]. *)
Definition delete_where (P : string → bool) (c : connection) : connection :=
  let c := implicit_begin c in
  set_rows (filter (λ kv, negb (P kv.1)) (rows c)) c.

(** [SELECT key, value FROM database WHERE ...]: the matching rows, in
    no promised order. *)
Definition select_where (P : string → bool) (c : connection)
    : list (string * string) :=
  map_to_list (filter (λ kv, P kv.1) (rows c)).

(** [ORDER BY key ASC|DESC] under the BINARY collation.  Keys are
    unique, so the descending order is the ascending one reversed. *)
Definition key_le (x y : string * string) : Prop := String.le x.1 y.1.

Global Instance key_le_dec : RelDecision key_le.
Proof. intros x y. unfold key_le. apply _. Defined.

Global Instance key_le_trans : Transitive key_le.
Proof. intros x y z. unfold key_le. apply transitivity. Qed.

Global Instance key_le_total : Total key_le.
Proof. intros x y. unfold key_le. apply total, _. Qed.

Definition order_by_key (desc : bool) (l : list (string * string))
    : list (string * string) :=
  let asc := merge_sort key_le l in
  if desc then reverse asc else asc.

(** [LIMIT ?]: a negative bound means no limit. *)
Definition limit {A} (n : Z) (l : list A) : list A :=
  if (n <? 0)%Z then l else take (Z.to_nat n) l.

Definition limit_opt {A} (n : option Z) (l : list A) : list A :=
  match n with None => l | Some n => limit n l end.

(** *** The LIKE operator

    The pattern and the text are read as NUL-terminated UTF-8.  In the
    pattern, [%] matches any run of characters and [_] one character;
    there is no escape character.  Any other character matches itself,
    and ASCII letters match regardless of case. *)
Fixpoint take_while {A} (p : A → bool) (l : list A) : list A :=
  match l with
  | [] => []
  | x :: l' => if p x then x :: take_while p l' else []
  end.

Fixpoint drop_while {A} (p : A → bool) (l : list A) : list A :=
  match l with
  | [] => []
  | x :: l' => if p x then drop_while p l' else l
  end.

Definition c_str (s : string) : list N :=
  take_while (λ b, bool_decide (b ≠ 0%N))
             (Ascii.N_of_ascii <$> String.list_ascii_of_string s).

Definition tolower (b : N) : N :=
  if ((65 <=? b) && (b <=? 90))%N then (b + 32)%N else b.

Definition char_match (c c2 : N) : bool :=
  bool_decide (c = c2)
  || (bool_decide (tolower c = tolower c2) && (c <? 128)%N && (c2 <? 128)%N).

(** Drop one UTF-8 character: a lead byte of at least 0xC0 takes its
    continuation bytes (10xxxxxx) with it. *)
Definition skip_char (s : list N) : option (list N) :=
  match s with
  | [] => None
  | b :: s' =>
      Some (if (192 <=? b)%N
            then drop_while (λ b', bool_decide (N.land b' 192 = 128%N)) s'
            else s')
  end.

Fixpoint pattern_compare (pat : list N) (s : list N) : bool :=
  match pat with
  | [] => bool_decide (s = [])
  | c :: pat' =>
      if bool_decide (c = 37%N) then          (* % *)
        (fix any (s : list N) : bool :=
           pattern_compare pat' s
           || match s with [] => false | _ :: s' => any s' end) s
      else if bool_decide (c = 95%N) then     (* _ *)
        match skip_char s with
        | None => false
        | Some s' => pattern_compare pat' s'
        end
      else
        match s with
        | [] => false
        | c2 :: s' => char_match c c2 && pattern_compare pat' s'
        end
  end.

Definition like (text pattern : string) : bool :=
  pattern_compare (c_str pattern) (c_str text).

(** [SELECT key, value FROM database WHERE key LIKE ?].  The operator
    rejects a pattern of more than SQLITE_MAX_LIKE_PATTERN_LENGTH bytes
    (50000) when it is evaluated, that is, as soon as there is a row to
    test. *)
Definition MAX_LIKE_PATTERN_LENGTH : Z := 50000.

Definition select_like (pattern : string) (c : connection)
    : result (list (string * string)) :=
  if bool_decide (rows c ≠ ∅)
     && (MAX_LIKE_PATTERN_LENGTH <? Z.of_nat (String.length pattern))%Z
  then Raise (OperationalError "LIKE or GLOB pattern too complex")
  else Ok (select_where (λ key, like key pattern) c).

End Sqlite.

(** ** The engine: [_SqlLiteHappyStore] *)

(** The instance attributes of [_SqlLiteHappyStore] that the methods read
    and write. *)
Record happystore := HappyStoreImpl {
  _serializer : Serializer;
  _sqlite_connection : Sqlite.connection;
  _is_already_in_txn : bool;
  _txn_nesting_level : Z
}.

Definition set_connection (c : Sqlite.connection) (self : happystore) :=
  HappyStoreImpl (_serializer self) c
                 (_is_already_in_txn self) (_txn_nesting_level self).
Definition set_is_already_in_txn (b : bool) (self : happystore) :=
  HappyStoreImpl (_serializer self) (_sqlite_connection self)
                 b (_txn_nesting_level self).
Definition set_txn_nesting_level (n : Z) (self : happystore) :=
  HappyStoreImpl (_serializer self) (_sqlite_connection self)
                 (_is_already_in_txn self) n.

(** Methods are computations over the instance that return or raise. *)
Definition M (A : Type) : Type := happystore → result A * happystore.

Global Instance M_ret : MRet M := λ A a self, (Ok a, self).
Global Instance M_bind : MBind M := λ A B f m self,
  match m self with
  | (Ok a, self') => f a self'
  | (Raise e, self') => (Raise e, self')
  end.

Definition raise {A} (e : exn) : M A := λ self, (Raise e, self).

(** A call that neither reads nor writes the instance. *)
Definition lift {A} (r : result A) : M A := λ self, (r, self).

(** [self._sqlite_connection.execute(...)] and friends. *)
Definition on_connection {A}
    (f : Sqlite.connection → result A * Sqlite.connection) : M A := λ self,
  let '(r, c) := f (_sqlite_connection self) in (r, set_connection c self).

Definition execute (s : Sqlite.statement) : M () :=
  on_connection (Sqlite.execute s).

Module SqlLiteHappyStore.

(** [_SqlLiteHappyStore.__init__]: a fresh connection on [database];
    CREATE TABLE IF NOT EXISTS leaves the rows already there in place. *)
Definition __init__ (database : table) (serializer : Serializer) : happystore :=
  {| _serializer := serializer;
     _sqlite_connection := Sqlite.Connection database Sqlite.Autocommit;
     _is_already_in_txn := false;
     _txn_nesting_level := 0 |}.

(** *** [transaction]

    The generator-based context manager, written as a combinator over the
    body of the [with] block.  The result is [Some a] when the block ran
    to its end with value [a], and [None] when an AbortionError left it:
    the context manager swallows that exception and execution goes on
    after the [with] statement. *)
Definition rollback_scope : M () := λ self,
  if (0 <? _txn_nesting_level self)%Z
  then execute (Sqlite.ROLLBACK_TO "txn") self
  else execute Sqlite.ROLLBACK self.

Definition commit_scope : M () := λ self,
  if (0 <? _txn_nesting_level self)%Z
  then execute (Sqlite.RELEASE_SAVEPOINT "txn") self
  else execute Sqlite.COMMIT self.

Definition enter_scope : M () := λ self,
  if _is_already_in_txn self
  then execute (Sqlite.SAVEPOINT "txn")
         (set_txn_nesting_level (_txn_nesting_level self + 1) self)
  else execute Sqlite.BEGIN_EXCLUSIVE_TRANSACTION
         (set_is_already_in_txn true self).

Definition finally_scope (self : happystore) : happystore :=
  if (_txn_nesting_level self =? 0)%Z
  then set_is_already_in_txn false self
  else set_txn_nesting_level (_txn_nesting_level self - 1) self.

Definition transaction {A} (body : M A) : M (option A) := λ self,
  (* try: ...; yield *)
  let '(r, self) := (_ ← enter_scope; body) self in
  let '(r, self) :=
    match r with
    | Raise e =>
        if is_AbortionError e then           (* except AbortionError: *)
          (_ ← rollback_scope; mret None) self
        else if is_Exception e then          (* except Exception: *)
          (_ ← rollback_scope; raise e) self
        else (Raise e, self)
    | Ok a =>                                (* else: *)
        (_ ← commit_scope; mret (Some a)) self
    end in
  (* finally: *)
  (r, finally_scope self).

(** [_ensure_execution_in_txn(f, args)].  The [return] inside the [with]
    block is overtaken by the context manager when [f] raises
    AbortionError: the method then falls off its end and returns None. *)
Definition _ensure_execution_in_txn {A} (f : M A) : M (option A) := λ self,
  if _is_already_in_txn self
  then (a ← f; mret (Some a)) self
  else transaction f self.

(** *** Point operations *)

Definition _get_impl (key : string) : M string :=
  on_connection (λ c,
    let results := (Sqlite.select_where (λ k, bool_decide (k = key)) c).*2 in
    (match results with
     | value_bytes :: _ => Ok value_bytes
     | [] => Raise (LookupError key)
     end, c)).

(** What a method hands on when the [with] block may have been left by an
    abort: the bytes, or None. *)
Definition bytes_or_None (r : option string) : pyobj :=
  match r with Some b => PyBytes b | None => PyNone end.

Definition get (key : string) : M pyobj := λ self,
  (value_bytes ← _ensure_execution_in_txn (_get_impl key);
   lift (deserialize (_serializer self) (bytes_or_None value_bytes))) self.

Definition _has_impl (key : string) : M bool :=
  on_connection (λ c,
    let results :=
      Sqlite.limit 1
        ((λ _, 1%Z) <$> Sqlite.select_where (λ k, bool_decide (k = key)) c) in
    (Ok (negb (bool_decide (length results = 0))), c)).

Definition has (key : string) : M (option bool) :=
  _ensure_execution_in_txn (_has_impl key).

Definition _set_impl (key : string) (value : string) : M () :=
  on_connection (Sqlite.replace_into [(key, value)]).

Definition set (key : string) (value : pyobj) : M (option ()) := λ self,
  (value_bytes ← lift (serialize (_serializer self) value);
   _ensure_execution_in_txn (_set_impl key value_bytes)) self.

Definition _delete_impl (key : string) : M bool :=
  on_connection (λ c,
    let '(rowcount, c) := Sqlite.delete_where_key key c in
    (Ok (0 <? rowcount)%Z, c)).

Definition delete (key : string) : M (option bool) :=
  _ensure_execution_in_txn (_delete_impl key).

(** *** Bulk operations *)

(** A dict comprehension: later pairs overwrite earlier ones. *)
Definition dict_of_pairs (l : list (string * string)) : table :=
  foldl (λ d kv, <[kv.1 := kv.2]> d) ∅ l.

(** [SELECT key, value FROM database WHERE key IN (?, ..., ?)], one
    parameter a key; an empty list on the right of IN is accepted and
    matches nothing. *)
Definition _bulk_get_impl (keys : list string) : M (list (string + exn)) :=
  on_connection (λ c,
    (_ ← Sqlite.prepare (length keys);
     let results := Sqlite.select_where (λ k, bool_decide (k ∈ keys)) c in
     let found_kv_pairs := dict_of_pairs results in
     Ok ((λ key, match found_kv_pairs !! key with
                 | Some value => inl value
                 | None => inr (LookupError key)
                 end) <$> keys), c)).

(** Each element of the impl's list is bytes or a LookupError instance;
    [type(value_bytes) == bytes] tells them apart.  If the [with] block
    was left by an abort there is no list to iterate over. *)
Definition bulk_get (keys : list string) : M (list (pyobj + exn)) := λ self,
  (values_bytes ← _ensure_execution_in_txn (_bulk_get_impl keys);
   match values_bytes with
   | Some values_bytes =>
       lift (mapM (λ value_bytes,
                     match value_bytes with
                     | inl b => v ← deserialize (_serializer self) (PyBytes b);
                                mret (inl v)
                     | inr e => mret (inr e)
                     end) values_bytes)
   | None => raise (TypeError "'NoneType' object is not iterable")
   end) self.

Definition _bulk_set_impl (key_serialized_value_pairs : list (string * string))
    : M () :=
  on_connection (Sqlite.replace_into key_serialized_value_pairs).

Definition bulk_set (key_value_pairs : list (string * pyobj))
    : M (option ()) := λ self,
  (key_serialized_value_pairs ←
     lift (mapM (λ kv, b ← serialize (_serializer self) kv.2; mret (kv.1, b))
                key_value_pairs);
   _ensure_execution_in_txn (_bulk_set_impl key_serialized_value_pairs)) self.

(** The keys are looked up first and deleted afterwards, each time with
    one parameter a key; the answer for each key is whether the look-up
    found it. *)
Definition _bulk_delete_impl (keys : list string) : M (list bool) :=
  on_connection (λ c,
    match Sqlite.prepare (length keys) with
    | Raise e => (Raise e, c)
    | Ok _ =>
        let results :=
          (Sqlite.select_where (λ k, bool_decide (k ∈ keys)) c).*1 in
        let found_keys : gset string := list_to_set results in
        let c := Sqlite.delete_where (λ k, bool_decide (k ∈ keys)) c in
        (Ok ((λ key, bool_decide (key ∈ found_keys)) <$> keys), c)
    end).

Definition bulk_delete (keys : list string) : M (option (list bool)) :=
  _ensure_execution_in_txn (_bulk_delete_impl keys).

(** *** [query] *)

(** The four branches bind [sql] and [params]; when [keyprefix], [start]
    and [end] are all None no branch is taken and reading [sql] fails.
    The prefix branch has no ASC/DESC and ignores [reverse].  A limit is
    bound as the last parameter of the statement. *)
Definition _query_impl (keyprefix start end_ : option string)
    (limit : option Z) (reverse : bool) : M (list (string * string)) :=
  on_connection (λ c,
    (match keyprefix, start, end_ with
     | Some keyprefix, _, _ =>
         limit ← Sqlite.bind_limit limit;
         results ← Sqlite.select_like (keyprefix +:+ "%") c;
         Ok (Sqlite.limit_opt limit (Sqlite.order_by_key false results))
     | None, Some start, Some end_ =>
         limit ← Sqlite.bind_limit limit;
         Ok (Sqlite.limit_opt limit
               (Sqlite.order_by_key reverse
                  (Sqlite.select_where
                     (λ key, String.leb start key && String.leb key end_) c)))
     | None, Some start, None =>
         limit ← Sqlite.bind_limit limit;
         Ok (Sqlite.limit_opt limit
               (Sqlite.order_by_key reverse
                  (Sqlite.select_where (λ key, String.leb start key) c)))
     | None, None, Some end_ =>
         limit ← Sqlite.bind_limit limit;
         Ok (Sqlite.limit_opt limit
               (Sqlite.order_by_key reverse
                  (Sqlite.select_where (λ key, String.leb key end_) c)))
     | None, None, None => Raise (UnboundLocalError "sql")
     end, c)).

(** The list comprehension decodes the pairs in order and stops at the
    first value the serializer rejects. *)
Definition decode_pairs (serializer : Serializer)
    (kvs : list (string * string)) : result (list (string * pyobj)) :=
  mapM (λ kv, v ← deserialize serializer (PyBytes kv.2); mret (kv.1, v)) kvs.

Definition query (keyprefix start end_ : option string)
    (limit : option Z) (reverse : bool) : M (list (string * pyobj)) := λ self,
  (kv_pairs_with_bytes_values ←
     _ensure_execution_in_txn (_query_impl keyprefix start end_ limit reverse);
   match kv_pairs_with_bytes_values with
   | Some kvs => lift (decode_pairs (_serializer self) kvs)
   | None => raise (TypeError "'NoneType' object is not iterable")
   end) self.

(** *** [scan]

    The generator, run to exhaustion by a consumer that does nothing else
    with the store.  [fuel] bounds the number of turns of the [while True]
    loop that are followed; the outcome says how the run ended.

    Each page is fetched inside a [with self.transaction():] block of its
    own, with [pagesize + 1] bound as the LIMIT.  The SELECT in it never
    raises AbortionError, so the block always binds [page] (lemma
    [fetch_page_never_aborts]); the branch for a block left by an abort is
    there for totality only. *)
Inductive scan_end :=
| Exhausted                 (* the generator returned *)
| Raised (e : exn)          (* an exception left the generator *)
| Looping.                  (* still in the loop when the fuel ran out *)

Definition fetch_page (next_key : string) (pagesize : Z)
    : M (list (string * string)) :=
  on_connection (λ c,
    (limit ← Sqlite.bind_int (pagesize + 1);
     Ok (Sqlite.limit limit
           (Sqlite.order_by_key false
              (Sqlite.select_where (λ key, String.leb next_key key) c))), c)).

Fixpoint scan_from (fuel : nat) (next_key : string) (pagesize : Z)
    (self : happystore) : list (string * pyobj) * scan_end * happystore :=
  match fuel with
  | O => ([], Looping, self)
  | S fuel =>
      match transaction (fetch_page next_key pagesize) self with
      | (Raise e, self) => ([], Raised e, self)
      | (Ok None, self) => ([], Raised (UnboundLocalError "page"), self)
      | (Ok (Some page), self) =>
          if (Z.of_nat (length page) <? pagesize + 1)%Z then
            match decode_pairs (_serializer self) page with
            | Raise e => ([], Raised e, self)
            | Ok page => (page, Exhausted, self)
            end
          else
            match last page with
            | None => ([], Raised IndexError, self)
            | Some (next_key, _) =>
                let page := removelast page in
                match decode_pairs (_serializer self) page with
                | Raise e => ([], Raised e, self)
                | Ok page =>
                    let '(rest, how, self) :=
                      scan_from fuel next_key pagesize self in
                    (page ++ rest, how, self)
                end
            end
      end
  end.

Definition scan (fuel : nat) (pagesize : Z) (self : happystore)
    : list (string * pyobj) * scan_end * happystore :=
  scan_from fuel "" pagesize self.

End SqlLiteHappyStore.

(** ** The public class [HappyStore]

    Every method checks the types of its arguments and delegates.  Keys,
    bounds and the page size are typed here, so those checks always pass;
    what remains is the check that [query] makes on its combination of
    arguments. *)
Module HappyStore.

Definition query (keyprefix start end_ : option string)
    (limit : option Z) (reverse : bool) : M (list (string * pyobj)) :=
  if bool_decide (keyprefix ≠ None)
     && (bool_decide (start ≠ None) || bool_decide (end_ ≠ None))
  then raise (RuntimeError "only supply keyprefix, or start and end")
  else SqlLiteHappyStore.query keyprefix start end_ limit reverse.

Definition scan (fuel : nat) (pagesize : Z) (self : happystore)
    : list (string * pyobj) * SqlLiteHappyStore.scan_end * happystore :=
  SqlLiteHappyStore.scan fuel pagesize self.

(** *** The methods on arguments of any type

    The type checks of the facade, for callers that pass any object.
    [transaction] delegates and checks nothing. *)

(** ['%s' % type(key)] *)
Definition str_of_type (t : pytype) : string :=
  match t with
  | TNoneType => "<class 'NoneType'>"
  | TInt => "<class 'int'>"
  | TStr => "<class 'str'>"
  | TBytes => "<class 'bytes'>"
  | TType => "<class 'type'>"
  end.

(** [if type(key) is not str: raise TypeError('key must be a str, not %s'
    % type(key))] *)
Definition check_key (key : pyobj) : result string :=
  match key with
  | PyStr s => Ok s
  | _ => Raise (TypeError ("key must be a str, not "
                           +:+ str_of_type (type_of key)))
  end.

Definition get (key : pyobj) : M pyobj :=
  key ← lift (check_key key); SqlLiteHappyStore.get key.

Definition has (key : pyobj) : M (option bool) :=
  key ← lift (check_key key); SqlLiteHappyStore.has key.

Definition set (key value : pyobj) : M (option ()) :=
  key ← lift (check_key key); SqlLiteHappyStore.set key value.

Definition delete (key : pyobj) : M (option bool) :=
  key ← lift (check_key key); SqlLiteHappyStore.delete key.

(** [for key in keys: if type(key) is not str: raise ...], then the call
    on the whole list. *)
Definition bulk_get (keys : list pyobj) : M (list (pyobj + exn)) :=
  keys ← lift (mapM check_key keys); SqlLiteHappyStore.bulk_get keys.

Definition bulk_set (key_value_pairs : list (pyobj * pyobj))
    : M (option ()) :=
  key_value_pairs ←
    lift (mapM (λ kv, key ← check_key kv.1; mret (key, kv.2))
               key_value_pairs);
  SqlLiteHappyStore.bulk_set key_value_pairs.

Definition bulk_delete (keys : list pyobj) : M (option (list bool)) :=
  keys ← lift (mapM check_key keys); SqlLiteHappyStore.bulk_delete keys.

(** [if type(x) not in (str, type(None)): raise TypeError('... must be a
    str, not %s' % type(key))].  The message is built first, and [key] is
    neither a local name of [query] or [scan] nor a name of the module:
    reading it raises NameError. *)
Definition check_str_or_None (x : pyobj) : result (option string) :=
  match x with
  | PyStr s => Ok (Some s)
  | PyNone => Ok None
  | _ => Raise (NameError "key")
  end.

Definition query_of (keyprefix start end_ : pyobj)
    (limit : option Z) (reverse : bool) : M (list (string * pyobj)) :=
  keyprefix ← lift (check_str_or_None keyprefix);
  start ← lift (check_str_or_None start);
  end_ ← lift (check_str_or_None end_);
  query keyprefix start end_ limit reverse.

(** [if type(pagesize) is not int: raise TypeError(... % type(key))].
    [HappyStore.scan] is a plain method that returns the engine's
    generator, so this check runs when [scan] is called. *)
Definition check_pagesize (pagesize : pyobj) : result Z :=
  match pagesize with
  | PyInt z => Ok z
  | _ => Raise (NameError "key")
  end.

Definition scan_of (fuel : nat) (pagesize : pyobj) (self : happystore)
    : list (string * pyobj) * SqlLiteHappyStore.scan_end * happystore :=
  match check_pagesize pagesize with
  | Ok pagesize => scan fuel pagesize self
  | Raise e => ([], SqlLiteHappyStore.Raised e, self)
  end.

End HappyStore.

(** ** Vocabulary of the statements *)

Definition rows_of (self : happystore) : table :=
  Sqlite.rows (_sqlite_connection self).

Definition with_rows (t : table) (self : happystore) : happystore :=
  set_connection (Sqlite.set_rows t (_sqlite_connection self)) self.

(** The states the engine is in between two calls of its methods on one
    thread: outside every [with] block SQLite is in autocommit mode and
    the nesting level is 0; inside one, a transaction opened by BEGIN is
    running and the nesting level is not negative. *)
Definition consistent (self : happystore) : Prop :=
  if _is_already_in_txn self
  then (0 ≤ _txn_nesting_level self)%Z
       ∧ ∃ begin_image savepoints,
           Sqlite.txn (_sqlite_connection self)
           = Sqlite.InTransaction false begin_image savepoints
  else _txn_nesting_level self = 0%Z
       ∧ Sqlite.txn (_sqlite_connection self) = Sqlite.Autocommit.

(** The whole table in ascending key order. *)
Definition ascending_rows (self : happystore) : list (string * string) :=
  merge_sort Sqlite.key_le (map_to_list (rows_of self)).

(** The inclusive bounds of a range query; a missing bound is no bound. *)
Definition in_range (start end_ : option string) (key : string) : bool :=
  match start with Some s => String.leb s key | None => true end
  && match end_ with Some e => String.leb key e | None => true end.

(** What [bulk_get] owes for one key: the decoded value, or a LookupError
    instance in its place. *)
Definition bulk_get_item (self : happystore) (key : string)
    : result (pyobj + exn) :=
  match rows_of self !! key with
  | Some b => v ← deserialize (_serializer self) (PyBytes b); mret (inl v)
  | None => mret (inr (LookupError key))
  end.

(** *** A working serializer

    [PickleSerializer] with custom factories: a pickler that accepts bytes
    objects only and writes them out as they are, and the unpickler that
    reads them back. *)
Definition bytes_pickler (value : pyobj) : result string :=
  match value with
  | PyBytes b => Ok b
  | _ => Raise (TypeError "not bytes")
  end.

Definition bytes_unpickler (bytess : pyobj) : result pyobj :=
  match bytess with
  | PyBytes b => Ok (PyBytes b)
  | _ => Raise (TypeError "not bytes")
  end.

Definition bytes_codec : Serializer :=
  PickleSerializer bytes_pickler bytes_unpickler.

(** *** Example stores *)

Definition empty_store : happystore :=
  SqlLiteHappyStore.__init__ ∅ bytes_codec.

(** The keys of the module's docstring, and one more. *)
Definition example_rows : table :=
  <["c" := "3"]> (<["abc" := "15"]> (<["ab" := "10"]> (<["a" := "5"]> ∅))).

Definition example_store : happystore :=
  SqlLiteHappyStore.__init__ example_rows bytes_codec.

Definition mixed_case_store : happystore :=
  SqlLiteHappyStore.__init__
    (<["abc" := "3"]> (<["Ab" := "2"]> (<["A" := "1"]> ∅))) bytes_codec.

(** *** Caller code with nested scopes

    [raise AbortionError()], and [try: block  except Exception: handler]. *)
Definition abort {A} : M A := raise AbortionError.

Definition try_except {A} (block : M A) (handler : exn → M A) : M A := λ self,
  match block self with
  | (Raise e, self') =>
      if is_Exception e then handler e self' else (Raise e, self')
  | r => r
  end.

(** <<
    with store.transaction():            # inner_scope
        store.set('c', b'3')
        raise AbortionError()
    >> *)
Definition inner_scope : M (option ()) :=
  SqlLiteHappyStore.transaction
    (_ ← SqlLiteHappyStore.set "c" (PyBytes "3"); abort).

(** <<
    with store.transaction():            # middle_scope
        store.set('b', b'2')
        with store.transaction():
            store.set('c', b'3')
            raise AbortionError()
        leave                            # raise AbortionError() or another
    >> *)
Definition middle_scope (leave : M ()) : M (option ()) :=
  SqlLiteHappyStore.transaction
    (_ ← SqlLiteHappyStore.set "b" (PyBytes "2"); _ ← inner_scope; leave).

(** <<
    with store.transaction():            # root_scope
        store.set('a', b'1')
        middle_scope
    >> *)
Definition root_scope (leave : M ()) : M (option (option ())) :=
  SqlLiteHappyStore.transaction
    (_ ← SqlLiteHappyStore.set "a" (PyBytes "1"); middle_scope leave).

(** The same root scope with the middle scope inside
    [try: ... except Exception: pass]. *)
Definition root_scope_catching (leave : M ()) : M (option (option ())) :=
  SqlLiteHappyStore.transaction
    (_ ← SqlLiteHappyStore.set "a" (PyBytes "1");
     try_except (middle_scope leave) (λ _, mret None)).

(** The state inside the root scope when the middle scope is entered. *)
Definition before_middle_scope : happystore :=
  ((_ ← SqlLiteHappyStore.enter_scope;
    SqlLiteHappyStore.set "a" (PyBytes "1")) empty_store).2.

(** *** Scenarios of the repository's test suite

    [test_nested_transactions], first and second part, with bytes for the
    values. *)
Definition test_nested_transactions_commit : M (option ()) :=
  SqlLiteHappyStore.transaction
    (_ ← SqlLiteHappyStore.set "a" (PyBytes "1");
     _ ← SqlLiteHappyStore.transaction
           (_ ← SqlLiteHappyStore.set "b" (PyBytes "2"); abort (A := ()));
     _ ← SqlLiteHappyStore.transaction
           (SqlLiteHappyStore.transaction
              (SqlLiteHappyStore.set "c" (PyBytes "3")));
     _ ← SqlLiteHappyStore.set "d" (PyBytes "4");
     mret ()).

Definition test_nested_transactions_raise : M (option ()) :=
  SqlLiteHappyStore.transaction
    (_ ← SqlLiteHappyStore.set "e" (PyBytes "1");
     _ ← SqlLiteHappyStore.transaction
           (_ ← SqlLiteHappyStore.set "f" (PyBytes "2");
            raise (A := ()) (UserException "Exception"));
     _ ← SqlLiteHappyStore.transaction
           (SqlLiteHappyStore.transaction
              (SqlLiteHappyStore.set "g" (PyBytes "3")));
     _ ← SqlLiteHappyStore.set "h" (PyBytes "4");
     mret ()).

(** The store of the query tests: keys [a], [ab], [c]. *)
Definition query_test_store : happystore :=
  SqlLiteHappyStore.__init__
    (<["c" := "3"]> (<["ab" := "2"]> (<["a" := "1"]> ∅))) bytes_codec.

(** The example rows in a store built with the shipped [RawSerializer],
    which wrote them: it accepts every bytes object. *)
Definition raw_store : happystore :=
  SqlLiteHappyStore.__init__ example_rows RawSerializer.

(** One key more than a statement takes parameters, all of them absent
    from the example store. *)
Definition too_many_keys : list string :=
  replicate (Z.to_nat (Sqlite.MAX_VARIABLE_NUMBER + 1)) "zz".

(** *** Caller code in general

    One call of a method of the public class, its result dropped. *)
Inductive operation :=
| OpGet (key : pyobj)
| OpHas (key : pyobj)
| OpSet (key value : pyobj)
| OpDelete (key : pyobj)
| OpBulkGet (keys : list pyobj)
| OpBulkSet (key_value_pairs : list (pyobj * pyobj))
| OpBulkDelete (keys : list pyobj)
| OpQuery (keyprefix start end_ : pyobj) (limit : option Z) (reverse : bool).

Definition call (op : operation) : M () :=
  match op with
  | OpGet key => _ ← HappyStore.get key; mret ()
  | OpHas key => _ ← HappyStore.has key; mret ()
  | OpSet key value => _ ← HappyStore.set key value; mret ()
  | OpDelete key => _ ← HappyStore.delete key; mret ()
  | OpBulkGet keys => _ ← HappyStore.bulk_get keys; mret ()
  | OpBulkSet pairs => _ ← HappyStore.bulk_set pairs; mret ()
  | OpBulkDelete keys => _ ← HappyStore.bulk_delete keys; mret ()
  | OpQuery keyprefix start end_ limit reverse =>
      _ ← HappyStore.query_of keyprefix start end_ limit reverse; mret ()
  end.

(** A block of caller code: calls, [raise AbortionError()], raising some
    other Exception, one statement after another,
    [with store.transaction(): body] and
    [try: body  except Exception: handler]. *)
Inductive block :=
| Call (op : operation)
| RaiseAbortionError
| RaiseException (tag : string)
| Then (first second : block)
| With (body : block)
| TryExcept (body handler : block).

Fixpoint run (b : block) : M () :=
  match b with
  | Call op => call op
  | RaiseAbortionError => abort
  | RaiseException tag => raise (UserException tag)
  | Then first second => _ ← run first; run second
  | With body => _ ← SqlLiteHappyStore.transaction (run body); mret ()
  | TryExcept body handler => try_except (run body) (λ _, run handler)
  end.

(** Blocks with no [with] statement in them. *)
Fixpoint flat (b : block) : bool :=
  match b with
  | Call _ | RaiseAbortionError | RaiseException _ => true
  | Then first second => flat first && flat second
  | With _ => false
  | TryExcept body handler => flat body && flat handler
  end.

(** A serializer whose methods raise nothing outside Exception. *)
Definition raises_only_Exception (serializer : Serializer) : Prop :=
  (∀ v e, serialize serializer v = Raise e → is_Exception e = true) ∧
  (∀ o e, deserialize serializer o = Raise e → is_Exception e = true).

(** What a block of caller code keeps when it runs inside a scope: the
    engine is still in its transaction at the same nesting level, SQLite
    is in the transaction it was in with the same image to roll back to,
    and its savepoint stack grew at most by savepoints called [txn]. *)
Definition kept_inside {A} (image : table) (sps : list (string * table))
    (level : Z) (serializer : Serializer) (out : result A * happystore)
    : Prop :=
  _is_already_in_txn out.2 = true ∧
  _txn_nesting_level out.2 = level ∧
  _serializer out.2 = serializer ∧
  (∃ extra, Sqlite.txn (_sqlite_connection out.2)
              = Sqlite.InTransaction false image (extra ++ sps)
            ∧ Forall (λ sp : string * table, sp.1 = "txn") extra) ∧
  (∀ e, out.1 = Raise e → is_Exception e = true).

(** What the [with] statement makes of the outcome of its block: an
    AbortionError ends there, any other exception goes on. *)
Definition scope_outcome {A} (r : result A) : result (option A) :=
  match r with
  | Ok a => Ok (Some a)
  | Raise e => if is_AbortionError e then Ok None else Raise e
  end.

(** <<
    store.set('z', b'9')
    with store.transaction():
        store.delete('a')
        raise AbortionError()
    raise Exception('boom')
    >> *)
Definition example_block : block :=
  Then (Call (OpSet (PyStr "z") (PyBytes "9")))
       (Then (With (Then (Call (OpDelete (PyStr "a"))) RaiseAbortionError))
             (RaiseException "boom")).

(** <<
    store.set('z', b'9')
    store.delete('a')
    raise Exception('boom')
    >> *)
Definition example_flat_block : block :=
  Then (Call (OpSet (PyStr "z") (PyBytes "9")))
       (Then (Call (OpDelete (PyStr "a"))) (RaiseException "boom")).

(** *** Prefixes

    The bytes of a string; prefixes that hold no wildcard of LIKE ([%],
    [_]) and no NUL byte; prefixes that hold no ASCII letter; and "the key
    starts with the prefix" when ASCII letters are compared without
    regard to case. *)
Definition bytes_of (s : string) : list N :=
  Ascii.N_of_ascii <$> String.list_ascii_of_string s.

Definition plain_byte (c : N) : bool :=
  negb (bool_decide (c = 37%N)) && negb (bool_decide (c = 95%N))
  && negb (bool_decide (c = 0%N)).

Definition plain_prefix (p : string) : bool :=
  forallb plain_byte (bytes_of p).

Definition letter (c : N) : bool :=
  ((65 <=? c) && (c <=? 90) || (97 <=? c) && (c <=? 122))%N.

Definition caseless (p : string) : bool :=
  forallb (λ c, negb (letter c)) (bytes_of p).

Fixpoint starts_with_nocase (p k : list N) : bool :=
  match p, k with
  | [], _ => true
  | c :: p', c2 :: k' => Sqlite.char_match c c2 && starts_with_nocase p' k'
  | _ :: _, [] => false
  end.

(** *** Proof steps shared by the lemmas on the engine *)

(** Take the instance apart into its attributes. *)
Ltac open_store self :=
  destruct self as [ser [t tx] flag lvl];
  unfold consistent, with_rows, rows_of in *; simpl in *.

(** Open a [with] block down to the statements it executes. *)
Ltac unfold_scope :=
  unfold SqlLiteHappyStore._ensure_execution_in_txn,
    SqlLiteHappyStore.transaction, SqlLiteHappyStore.enter_scope,
    on_connection, mbind, M_bind, mret, M_ret.

(** * Properties *)

(** ** The substrate: selection, ordering, LIKE *)

Section substrate.
Import Sqlite.

Lemma elem_of_select_where P c k v :
  (k, v) ∈ select_where P c ↔ rows c !! k = Some v ∧ P k = true.
Proof.
  unfold select_where.
  rewrite elem_of_map_to_list, map_lookup_filter_Some. simpl.
  by rewrite Is_true_true.
Qed.

Lemma NoDup_select_where_keys P c : NoDup (select_where P c).*1.
Proof. apply NoDup_fst_map_to_list. Qed.

Lemma select_where_rows P c c' :
  rows c = rows c' → select_where P c = select_where P c'.
Proof. unfold select_where. by intros ->. Qed.

(** [WHERE key = ?] finds the row of that key, if there is one. *)
Lemma select_where_key c key :
  select_where (λ k, bool_decide (k = key)) c =
    match rows c !! key with Some v => [(key, v)] | None => [] end.
Proof.
  unfold select_where.
  assert (filter (λ kv : string * string, bool_decide (kv.1 = key)) (rows c)
          = match rows c !! key with Some v => {[key := v]} | None => ∅ end)
    as ->.
  { apply map_eq. intros i. apply option_eq. intros x.
    rewrite map_lookup_filter_Some. simpl. rewrite bool_decide_spec.
    destruct (rows c !! key) as [v|] eqn:Hk.
    - rewrite lookup_singleton_Some. split.
      + intros [Hi ->]. split; congruence.
      + intros [<- <-]. split; congruence.
    - rewrite lookup_empty. split; [|done].
      intros [Hi ->]. congruence. }
  destruct (rows c !! key).
  - apply map_to_list_singleton.
  - apply map_to_list_empty.
Qed.

Lemma dict_of_pairs_foldl (l : list (string * string)) (d : table) :
  NoDup l.*1 →
  foldl (λ d kv, <[kv.1 := kv.2]> d) d l = list_to_map l ∪ d.
Proof.
  revert d. induction l as [|[k v] l IH]; intros d Hnd; simpl.
  - by rewrite (left_id_L ∅ (∪)).
  - inversion_clear Hnd as [|?? Hk Hl].
    rewrite IH by done.
    rewrite <-insert_union_r by (by apply not_elem_of_list_to_map_1).
    by rewrite insert_union_l.
Qed.

(** The dict built from the rows of [WHERE key IN (...)]. *)
Lemma dict_of_select_where P c k :
  SqlLiteHappyStore.dict_of_pairs (select_where P c) !! k =
    if P k then rows c !! k else None.
Proof.
  unfold SqlLiteHappyStore.dict_of_pairs.
  rewrite dict_of_pairs_foldl by apply NoDup_select_where_keys.
  rewrite (right_id_L ∅ (∪)). unfold select_where.
  rewrite list_to_map_to_list.
  destruct (P k) eqn:HP.
  - apply option_eq. intros x. rewrite map_lookup_filter_Some. simpl.
    rewrite HP. split; [by intros [? _]|]. by intros.
  - apply map_lookup_filter_None. right. intros x _. simpl. rewrite HP.
    by intros [].
Qed.

Lemma StronglySorted_filter {A} (R : relation A) (P : A → Prop)
    `{∀ x, Decision (P x)} (l : list A) :
  StronglySorted R l → StronglySorted R (filter P l).
Proof.
  induction 1 as [|x l Hl IH Hx]; [constructor|].
  rewrite filter_cons. destruct (decide (P x)); [|done].
  constructor; [done|]. apply Forall_forall.
  intros y [_ Hy]%list_elem_of_filter. rewrite Forall_forall in Hx. auto.
Qed.

Lemma filter_none {A} (P : A → Prop) `{∀ x, Decision (P x)} (l : list A) :
  (∀ x, x ∈ l → ¬ P x) → filter P l = [].
Proof.
  induction l as [|x l IH]; intros Hl; [done|].
  rewrite filter_cons_False by (apply Hl; by left).
  apply IH. intros y Hy. apply Hl. by right.
Qed.

Lemma filter_all {A} (P : A → Prop) `{∀ x, Decision (P x)} (l : list A) :
  (∀ x, x ∈ l → P x) → filter P l = l.
Proof.
  induction l as [|x l IH]; intros Hl; [done|].
  rewrite filter_cons_True by (apply Hl; by left).
  f_equal. apply IH. intros y Hy. apply Hl. by right.
Qed.

Lemma ascending_sorted (t : table) :
  StronglySorted key_le (merge_sort key_le (map_to_list t)).
Proof. apply StronglySorted_merge_sort; apply _. Qed.

Lemma ascending_perm (t : table) :
  merge_sort key_le (map_to_list t) ≡ₚ map_to_list t.
Proof. apply merge_sort_Permutation. Qed.

Lemma elem_of_ascending (t : table) k v :
  (k, v) ∈ merge_sort key_le (map_to_list t) ↔ t !! k = Some v.
Proof. by rewrite ascending_perm, elem_of_map_to_list. Qed.

Lemma NoDup_ascending_keys (t : table) :
  NoDup (merge_sort key_le (map_to_list t)).*1.
Proof. rewrite (ascending_perm t). apply NoDup_fst_map_to_list. Qed.

(** Keys are unique, so ascending means strictly ascending. *)
Lemma strictly_ascending (l : list (string * string)) :
  StronglySorted key_le l → NoDup l.*1 →
  StronglySorted (λ k1 k2, String.le k1 k2 ∧ k1 ≠ k2) l.*1.
Proof.
  induction 1 as [|x l Hl IH Hx]; intros Hnd; [constructor|].
  rewrite fmap_cons in *. inversion_clear Hnd as [|?? Hnotin Hnd'].
  constructor; [by apply IH|].
  apply Forall_forall. intros k Hk.
  apply list_elem_of_fmap in Hk as (y & -> & Hy).
  rewrite Forall_forall in Hx. split; [by apply Hx|].
  intros Heq. apply Hnotin. rewrite Heq. by apply list_elem_of_fmap_2.
Qed.

(** WHERE then ORDER BY is the ordered table with the rows that do not
    match left out. *)
Lemma order_select_where P c :
  order_by_key false (select_where P c)
  = filter (λ kv, P kv.1) (merge_sort key_le (map_to_list (rows c))).
Proof.
  unfold order_by_key, select_where.
  apply (StronglySorted_unique_strong key_le).
  - intros [k1 v1] [k2 v2] H1 H2 Hle1 Hle2.
    assert (k1 = k2) as <- by by apply (anti_symm String.le).
    rewrite merge_sort_Permutation, elem_of_map_to_list,
      map_lookup_filter_Some in H1.
    rewrite list_elem_of_filter, elem_of_ascending in H2.
    destruct H1 as [H1 _], H2 as [_ H2]. congruence.
  - apply StronglySorted_merge_sort; apply _.
  - apply StronglySorted_filter, ascending_sorted.
  - rewrite merge_sort_Permutation.
    apply NoDup_Permutation.
    + apply NoDup_map_to_list.
    + apply NoDup_filter. rewrite ascending_perm. apply NoDup_map_to_list.
    + intros [k v]. rewrite elem_of_map_to_list, map_lookup_filter_Some.
      rewrite list_elem_of_filter, elem_of_ascending. simpl. tauto.
Qed.

Lemma order_select_where_desc reverse_ P c :
  order_by_key reverse_ (select_where P c)
  = (if reverse_ : bool then reverse else id)
      (filter (λ kv, P kv.1) (merge_sort key_le (map_to_list (rows c)))).
Proof.
  rewrite <-order_select_where. unfold order_by_key. by destruct reverse_.
Qed.

Lemma empty_string_least k : String.leb "" k = true.
Proof. by destruct k. Qed.

(** Restarting at the key of a row of the ordered table yields that row
    and the rows after it. *)
Lemma filter_from_cursor (before after : list (string * string)) x :
  StronglySorted key_le (before ++ x :: after) →
  NoDup (before ++ x :: after).*1 →
  filter (λ kv, String.leb x.1 kv.1) (before ++ x :: after) = x :: after.
Proof.
  intros Hs Hnd. rewrite filter_app.
  rewrite (filter_none _ before), (filter_all _ (x :: after)); [done| |].
  - intros y Hy. apply StronglySorted_app_1_r in Hs.
    inversion_clear Hy as [|?? Hy']; [apply (reflexivity (R:=String.le))|].
    inversion_clear Hs as [|?? _ Hall].
    rewrite Forall_forall in Hall. by apply (Hall y).
  - intros y Hy Hle.
    assert (key_le y x) as Hyx.
    { eapply StronglySorted_app_1_elem_of; [done..|by left]. }
    assert (y.1 = x.1) as Heq by by apply (anti_symm String.le).
    rewrite fmap_app, fmap_cons in Hnd.
    apply NoDup_app in Hnd as (_ & Hnd & _).
    apply (Hnd x.1); [|by left].
    rewrite <-Heq. by apply list_elem_of_fmap_2.
Qed.

Lemma pattern_compare_any pat s :
  pattern_compare (37%N :: pat) s
  = pattern_compare pat s
    || match s with
       | [] => false
       | _ :: s' => pattern_compare (37%N :: pat) s'
       end.
Proof. by destruct s. Qed.

Lemma pattern_any_matches s : pattern_compare [37%N] s = true.
Proof.
  induction s as [|c s IH]; [done|].
  rewrite pattern_compare_any, IH. apply orb_true_r.
Qed.

Lemma pattern_compare_prefix (bp r : list N) :
  pattern_compare
    (take_while (λ b, bool_decide (b ≠ 0%N)) (bp ++ [37%N]))
    (take_while (λ b, bool_decide (b ≠ 0%N)) (bp ++ r)) = true.
Proof.
  induction bp as [|b bp IH]; simpl.
  - apply pattern_any_matches.
  - destruct (decide (b = 0%N)) as [Hz|Hz].
    + by rewrite !bool_decide_eq_false_2 by (by intros ?).
    + rewrite !bool_decide_eq_true_2 by done.
      destruct (decide (b = 37%N)) as [->|H37].
      { rewrite pattern_compare_any, pattern_compare_any, IH.
        simpl. apply orb_true_r. }
      cbn [pattern_compare].
      rewrite (bool_decide_eq_false_2 (b = 37%N)) by done.
      destruct (decide (b = 95%N)) as [->|H95]; [done|].
      rewrite (bool_decide_eq_false_2 (b = 95%N)) by done.
      unfold char_match. rewrite bool_decide_eq_true_2 by done.
      by rewrite IH.
Qed.

Lemma bytes_app (s1 s2 : string) :
  Ascii.N_of_ascii <$> String.list_ascii_of_string (s1 +:+ s2)
  = (Ascii.N_of_ascii <$> String.list_ascii_of_string s1)
    ++ (Ascii.N_of_ascii <$> String.list_ascii_of_string s2).
Proof.
  induction s1 as [|a s1 IH]; [done|].
  change (String a s1 +:+ s2) with (String a (s1 +:+ s2)).
  change (String.list_ascii_of_string (String a (s1 +:+ s2)))
    with (a :: String.list_ascii_of_string (s1 +:+ s2)).
  change (String.list_ascii_of_string (String a s1))
    with (a :: String.list_ascii_of_string s1).
  by rewrite !fmap_cons, IH.
Qed.

Lemma prefix_split p k :
  String.prefix p k = true → ∃ r, k = p +:+ r.
Proof.
  revert k. induction p as [|a p IH]; intros k Hk.
  - by exists k.
  - destruct k as [|a' k]; [done|]. simpl in Hk.
    destruct (Ascii.ascii_dec a a') as [<-|]; [|done].
    destruct (IH k Hk) as [r ->]. by exists r.
Qed.

(** A key that starts with the prefix is matched by the prefix followed
    by [%], whatever characters the prefix holds. *)
Lemma like_prefix p k :
  String.prefix p k = true → like k (p +:+ "%") = true.
Proof.
  intros [r ->]%prefix_split. unfold like, c_str.
  rewrite !bytes_app. apply pattern_compare_prefix.
Qed.

Lemma length_append (s1 s2 : string) :
  String.length (s1 +:+ s2) = String.length s1 + String.length s2.
Proof. induction s1 as [|a s1 IH]; [done|]. simpl. by rewrite IH. Qed.

(** The pattern of a prefix of less than 50000 bytes is within the
    limit. *)
Lemma select_like_short p c :
  (Z.of_nat (String.length p) < MAX_LIKE_PATTERN_LENGTH)%Z →
  select_like (p +:+ "%") c
  = Ok (select_where (λ key, like key (p +:+ "%")) c).
Proof.
  intros Hlen. unfold select_like. rewrite length_append.
  assert ((MAX_LIKE_PATTERN_LENGTH
           <? Z.of_nat (String.length p + String.length "%"))%Z = false)
    as -> by (apply Z.ltb_ge; simpl; lia).
  by rewrite andb_false_r.
Qed.

End substrate.

(** ** List comprehensions that may raise *)

Section comprehensions.

Lemma mapM_result_Forall2 {A B} (f : A → result B) l :
  (∀ x, x ∈ l → ∃ y, f x = Ok y) →
  ∃ l', mapM f l = Ok l' ∧ Forall2 (λ x y, f x = Ok y) l l'.
Proof.
  induction l as [|x l IH]; intros Hall.
  - exists []. by split.
  - destruct (Hall x) as [y Hy]; [by left|].
    destruct IH as (l' & Hl' & HF); [intros; apply Hall; by right|].
    exists (y :: l'). split; [|by constructor].
    simpl. rewrite Hy. simpl. by rewrite Hl'.
Qed.

Lemma mapM_result_length {A B} (f : A → result B) l l' :
  mapM f l = Ok l' → length l' = length l.
Proof.
  revert l'. induction l as [|x l IH]; intros l' H; simpl in H.
  - by injection H as <-.
  - destruct (f x) as [y|]; [|done]. simpl in H.
    destruct (mapM f l) as [l''|]; [|done]. simpl in H.
    injection H as <-. simpl. by rewrite (IH l'').
Qed.

Lemma mapM_result_app {A B} (f : A → result B) l1 l2 l' :
  mapM f (l1 ++ l2) = Ok l' →
  ∃ l1' l2', mapM f l1 = Ok l1' ∧ mapM f l2 = Ok l2' ∧ l' = l1' ++ l2'.
Proof.
  revert l'. induction l1 as [|x l1 IH]; intros l' H.
  - exists [], l'. by repeat split.
  - simpl in H. destruct (f x) as [y|e] eqn:Hy; [|done]. simpl in H.
    destruct (mapM f (l1 ++ l2)) as [l''|e] eqn:Hl; [|done]. simpl in H.
    destruct (IH _ eq_refl) as (l1' & l2' & H1 & H2 & ->).
    exists (y :: l1'), l2'. simpl. rewrite Hy. simpl. rewrite H1. simpl.
    repeat split; [done|]. by inversion H.
Qed.

Lemma decode_pairs_app ser l1 l2 d :
  SqlLiteHappyStore.decode_pairs ser (l1 ++ l2) = Ok d →
  ∃ d1 d2, SqlLiteHappyStore.decode_pairs ser l1 = Ok d1
           ∧ SqlLiteHappyStore.decode_pairs ser l2 = Ok d2
           ∧ d = d1 ++ d2.
Proof. apply mapM_result_app. Qed.

Lemma decode_pairs_Forall2 ser l d :
  SqlLiteHappyStore.decode_pairs ser l = Ok d →
  Forall2 (λ kv kd, kd.1 = kv.1 ∧ deserialize ser (PyBytes kv.2) = Ok kd.2)
          l d.
Proof.
  revert d. induction l as [|[k b] l IH]; intros d Hd.
  - inversion Hd. constructor.
  - unfold SqlLiteHappyStore.decode_pairs in Hd. simpl in Hd.
    destruct (deserialize ser (PyBytes b)) as [v|] eqn:Hv; [|done].
    simpl in Hd. fold (SqlLiteHappyStore.decode_pairs ser l) in Hd.
    destruct (SqlLiteHappyStore.decode_pairs ser l) as [d'|]; [|done].
    inversion Hd; subst. constructor; [done|]. by apply IH.
Qed.

End comprehensions.

(** ** Serializers *)

Section serializers.

(** [PickleSerializer] round-trips every value its factories do. *)
Lemma PickleSerializer_round_trip pickler unpickler v b :
  pickler v = Ok b → unpickler (PyBytes b) = Ok v →
  serialize (PickleSerializer pickler unpickler) v = Ok b ∧
  deserialize (PickleSerializer pickler unpickler) (PyBytes b) = Ok v.
Proof. intros Hp Hu. simpl. by rewrite Hp, Hu. Qed.

(** [JsonSerializer] accepts no value and reads no bytes. *)
Lemma JsonSerializer_raises v :
  serialize JsonSerializer v = Raise SerializationError ∧
  deserialize JsonSerializer v = Raise DeserializationError.
Proof. done. Qed.

Lemma bytes_codec_round_trip b :
  serialize bytes_codec (PyBytes b) = Ok b ∧
  deserialize bytes_codec (PyBytes b) = Ok (PyBytes b).
Proof. done. Qed.

End serializers.

(** ** The engine in consistent states *)

Section engine.
Import Sqlite SqlLiteHappyStore.

Lemma consistent_init database serializer :
  consistent (__init__ database serializer).
Proof. by split. Qed.

Lemma consistent_with_rows t' self :
  consistent self → consistent (with_rows t' self).
Proof. open_store self. by destruct flag. Qed.

Lemma rows_of_with_rows t' self : rows_of (with_rows t' self) = t'.
Proof. by open_store self. Qed.

Lemma serializer_with_rows t' self :
  _serializer (with_rows t' self) = _serializer self.
Proof. by open_store self. Qed.

(** A [with self.transaction():] block around a read leaves the instance
    as it found it, at any nesting depth. *)
Lemma transaction_read_ok {A} (g : connection → result A) self a :
  consistent self →
  (∀ c c', rows c = rows c' → g c = g c') →
  g (_sqlite_connection self) = Ok a →
  transaction (on_connection (λ c, (g c, c))) self = (Ok (Some a), self).
Proof.
  intros Hc Hg Ha. unfold_scope. open_store self. destruct flag.
  - destruct Hc as [Hlvl (image & sps & ->)]. simpl.
    rewrite (Hg _ (Connection t (InTransaction false image sps))) by done.
    rewrite Ha. unfold commit_scope, finally_scope. simpl.
    assert ((0 <? lvl + 1)%Z = true) as -> by (apply Z.ltb_lt; lia).
    simpl.
    assert ((lvl + 1 =? 0)%Z = false) as -> by (apply Z.eqb_neq; lia).
    unfold set_txn_nesting_level. simpl.
    replace (lvl + 1 - 1)%Z with lvl by lia. by destruct sps.
  - destruct Hc as [-> ->]. simpl.
    rewrite (Hg _ (Connection t Autocommit)) by done. by rewrite Ha.
Qed.

Lemma ensure_read_ok {A} (g : connection → result A) self a :
  consistent self →
  (∀ c c', rows c = rows c' → g c = g c') →
  g (_sqlite_connection self) = Ok a →
  _ensure_execution_in_txn (on_connection (λ c, (g c, c))) self
  = (Ok (Some a), self).
Proof.
  intros Hc Hg Ha. unfold _ensure_execution_in_txn.
  destruct (_is_already_in_txn self) eqn:Hflag.
  - unfold on_connection, mbind, M_bind, mret, M_ret. rewrite Ha.
    by destruct self as [? [] ? ?].
  - by apply transaction_read_ok.
Qed.

Lemma ensure_read_raise {A} (g : connection → result A) self e :
  consistent self →
  (∀ c c', rows c = rows c' → g c = g c') →
  g (_sqlite_connection self) = Raise e →
  is_AbortionError e = false → is_Exception e = true →
  _ensure_execution_in_txn (on_connection (λ c, (g c, c))) self
  = (Raise e, self).
Proof.
  intros Hc Hg Ha He1 He2. unfold_scope. open_store self.
  destruct flag; simpl.
  - by rewrite Ha.
  - destruct Hc as [-> ->]. simpl.
    rewrite (Hg _ (Connection t Autocommit)) by done. rewrite Ha. simpl.
    by rewrite He1, He2.
Qed.

Lemma prepare_within n :
  (Z.of_nat n ≤ MAX_VARIABLE_NUMBER)%Z → prepare n = Ok ().
Proof.
  intros Hn. unfold prepare.
  by assert ((MAX_VARIABLE_NUMBER <? Z.of_nat n)%Z = false) as ->
    by (apply Z.ltb_ge; lia).
Qed.

Lemma prepare_beyond n :
  (MAX_VARIABLE_NUMBER < Z.of_nat n)%Z →
  prepare n = Raise (OperationalError "too many SQL variables").
Proof.
  intros Hn. unfold prepare.
  by assert ((MAX_VARIABLE_NUMBER <? Z.of_nat n)%Z = true) as ->
    by (apply Z.ltb_lt; lia).
Qed.

Lemma bind_int_within n :
  (- 2 ^ 63 ≤ n ≤ 2 ^ 63 - 1)%Z → bind_int n = Ok n.
Proof.
  intros Hn. unfold bind_int.
  assert ((n <? - 2 ^ 63)%Z = false) as -> by (apply Z.ltb_ge; lia).
  by assert ((2 ^ 63 - 1 <? n)%Z = false) as -> by (apply Z.ltb_ge; lia).
Qed.

Lemma bind_int_beyond n :
  (2 ^ 63 - 1 < n)%Z → bind_int n = Raise OverflowError.
Proof.
  intros Hn. unfold bind_int.
  assert ((2 ^ 63 - 1 <? n)%Z = true) as -> by (apply Z.ltb_lt; lia).
  by rewrite orb_true_r.
Qed.

Lemma ensure_replace kvs self :
  consistent self → kvs ≠ [] →
  (2 * Z.of_nat (length kvs) ≤ MAX_VARIABLE_NUMBER)%Z →
  _ensure_execution_in_txn (on_connection (replace_into kvs)) self
  = (Ok (Some ()),
     with_rows (foldl (λ t kv, <[kv.1 := kv.2]> t) (rows_of self) kvs) self).
Proof.
  intros Hc Hne Hlen. unfold_scope. open_store self.
  unfold replace_into. rewrite prepare_within by lia.
  destruct kvs as [|kv kvs]; [done|].
  destruct flag; simpl.
  - by destruct Hc as [_ (image & sps & ->)].
  - by destruct Hc as [-> ->].
Qed.

(** A REPLACE with more parameters than SQLite takes fails when it is
    compiled, before anything is written. *)
Lemma ensure_replace_too_many kvs self :
  consistent self →
  (MAX_VARIABLE_NUMBER < 2 * Z.of_nat (length kvs))%Z →
  _ensure_execution_in_txn (on_connection (replace_into kvs)) self
  = (Raise (OperationalError "too many SQL variables"), self).
Proof.
  intros Hc Hlen. unfold_scope. open_store self.
  unfold replace_into. rewrite prepare_beyond by lia.
  destruct kvs as [|kv kvs]; [simpl in Hlen; unfold MAX_VARIABLE_NUMBER in Hlen; lia|].
  destruct flag; simpl; [done|].
  by destruct Hc as [-> ->].
Qed.

Lemma ensure_replace_nil self :
  consistent self →
  _ensure_execution_in_txn (on_connection (replace_into [])) self
  = (Raise (OperationalError "incomplete input"), self).
Proof.
  intros Hc. unfold_scope. open_store self.
  destruct flag; simpl; [done|].
  by destruct Hc as [-> ->].
Qed.

Lemma get_spec key self :
  consistent self →
  get key self =
    (match rows_of self !! key with
     | Some b => deserialize (_serializer self) (PyBytes b)
     | None => Raise (LookupError key)
     end, self).
Proof.
  intros Hc. unfold get, _get_impl, mbind, M_bind at 1.
  destruct (rows_of self !! key) as [b|] eqn:Hk; unfold rows_of in Hk.
  - rewrite (ensure_read_ok
      (λ c, match (select_where (λ k, bool_decide (k = key)) c).*2 with
            | value_bytes :: _ => Ok value_bytes
            | [] => Raise (LookupError key) end) self b); try done.
    + intros c c' Hcc. by rewrite (select_where_rows _ c c').
    + by rewrite select_where_key, Hk.
  - rewrite (ensure_read_raise
      (λ c, match (select_where (λ k, bool_decide (k = key)) c).*2 with
            | value_bytes :: _ => Ok value_bytes
            | [] => Raise (LookupError key) end) self (LookupError key));
      try done.
    + intros c c' Hcc. by rewrite (select_where_rows _ c c').
    + by rewrite select_where_key, Hk.
Qed.

Lemma has_spec key self :
  consistent self →
  has key self
  = (Ok (Some (bool_decide (is_Some (rows_of self !! key)))), self).
Proof.
  intros Hc. unfold has, _has_impl.
  apply (ensure_read_ok (λ c, Ok (negb (bool_decide (length (limit 1
      ((λ _, 1%Z) <$> select_where (λ k, bool_decide (k = key)) c)) = 0))))).
  - done.
  - intros c c' Hcc. by rewrite (select_where_rows _ c c').
  - rewrite select_where_key. unfold rows_of.
    by destruct (rows (_sqlite_connection self) !! key).
Qed.

Lemma set_spec key value b self :
  consistent self →
  serialize (_serializer self) value = Ok b →
  set key value self
  = (Ok (Some ()), with_rows (<[key := b]> (rows_of self)) self).
Proof.
  intros Hc Hs. unfold set, _set_impl, lift, mbind, M_bind at 1.
  rewrite Hs. by rewrite ensure_replace.
Qed.

Lemma delete_spec key self :
  consistent self →
  delete key self
  = (Ok (Some (bool_decide (is_Some (rows_of self !! key)))),
     with_rows (base.delete key (rows_of self)) self).
Proof.
  intros Hc. unfold delete, _delete_impl. unfold_scope. open_store self.
  destruct flag; simpl.
  - destruct Hc as [_ (image & sps & ->)]. simpl. by destruct (t !! key).
  - destruct Hc as [-> ->]. simpl. by destruct (t !! key).
Qed.

Lemma bulk_get_spec keys self :
  consistent self →
  bulk_get keys self
  = (_ ← prepare (length keys); mapM (bulk_get_item self) keys, self).
Proof.
  intros Hc. unfold bulk_get, _bulk_get_impl, mbind at 1, M_bind at 1.
  destruct (prepare (length keys)) as [[]|e] eqn:Hp; cbn [mbind result_bind].
  2:{ assert (e = OperationalError "too many SQL variables") as ->.
      { unfold prepare in Hp. destruct (_ <? _)%Z; congruence. }
      by rewrite (ensure_read_raise (A := list (string + exn))
        (λ _, Raise (OperationalError "too many SQL variables")) self
        (OperationalError "too many SQL variables") Hc). }
  erewrite (ensure_read_ok
    (λ c, Ok ((λ key,
                 match dict_of_pairs
                         (select_where (λ k, bool_decide (k ∈ keys)) c)
                       !! key with
                 | Some value => inl value
                 | None => inr (LookupError key)
                 end) <$> keys)) self _ Hc); [| |reflexivity].
  2:{ intros c c' Hcc. by rewrite (select_where_rows _ c c'). }
  unfold lift. f_equal.
  enough (Hks : ∀ ks, (∀ k, k ∈ ks → k ∈ keys) →
    mapM (λ value_bytes : string + exn,
            match value_bytes with
            | inl b =>
                v ← deserialize (_serializer self) (PyBytes b); mret (inl v)
            | inr e => mret (inr e)
            end)
      ((λ key, match dict_of_pairs
                 (select_where (λ k, bool_decide (k ∈ keys))
                    (_sqlite_connection self)) !! key with
               | Some value => inl value
               | None => inr (LookupError key)
               end) <$> ks)
    = mapM (bulk_get_item self) ks) by by apply Hks.
  induction ks as [|k ks IH]; intros Hall; [done|].
  rewrite fmap_cons. simpl. rewrite IH by (intros; apply Hall; by right).
  rewrite dict_of_select_where.
  rewrite bool_decide_eq_true_2 by (apply Hall; by left).
  unfold bulk_get_item, rows_of.
  by destruct (rows (_sqlite_connection self) !! k).
Qed.

(** More keys than a statement takes parameters: the SELECT does not
    compile, and [bulk_get] raises without a list. *)
Lemma bulk_get_too_many keys self :
  consistent self →
  (MAX_VARIABLE_NUMBER < Z.of_nat (length keys))%Z →
  bulk_get keys self
  = (Raise (OperationalError "too many SQL variables"), self).
Proof.
  intros Hc Hlen. rewrite bulk_get_spec by done.
  by rewrite prepare_beyond.
Qed.

Lemma length_too_many_keys :
  Z.of_nat (length too_many_keys) = (MAX_VARIABLE_NUMBER + 1)%Z.
Proof.
  unfold too_many_keys. rewrite length_replicate.
  apply Z2Nat.id. unfold MAX_VARIABLE_NUMBER. lia.
Qed.

End engine.

(** ** Scopes that leave the savepoint stack as they found it *)

Section scopes.
Import Sqlite SqlLiteHappyStore.

(** When the block changed nothing but rows, leaving it with an exception
    restores the rows the scope started from: a root scope by ROLLBACK, a
    nested one by ROLLBACK TO its own savepoint, which is then the most
    recent one.  AbortionError stops here; any other Exception goes on. *)
Lemma scope_rollback_exact {A} (body : M A) self e t' :
  consistent self →
  body (enter_scope self).2 = (Raise e, with_rows t' (enter_scope self).2) →
  is_Exception e = true →
  (transaction body self).1
    = (if is_AbortionError e then Ok None else Raise e) ∧
  rows_of (transaction body self).2 = rows_of self ∧
  (_is_already_in_txn self = false → (transaction body self).2 = self).
Proof.
  intros Hc Hbody He.
  unfold transaction, mbind, M_bind, mret, M_ret.
  destruct self as [ser [t tx] flag lvl].
  unfold consistent, with_rows, rows_of, enter_scope, execute,
    on_connection in *. simpl in *.
  destruct flag.
  - destruct Hc as [Hlvl (image & sps & ->)]. simpl in *. rewrite Hbody.
    unfold rollback_scope, finally_scope, raise, execute, on_connection.
    simpl.
    assert ((0 <? lvl + 1)%Z = true) as -> by (apply Z.ltb_lt; lia).
    assert ((lvl + 1 =? 0)%Z = false) as Hnz by (apply Z.eqb_neq; lia).
    destruct (is_AbortionError e); simpl; [|rewrite He; simpl];
      rewrite Hnz; done.
  - destruct Hc as [-> ->]. simpl in *. rewrite Hbody.
    unfold rollback_scope, finally_scope, raise, execute, on_connection.
    simpl. destruct (is_AbortionError e); simpl; [done|].
    by rewrite He.
Qed.

(** Leaving such a block normally keeps its writes and nothing else. *)
Lemma scope_commit_exact {A} (body : M A) self a t' :
  consistent self →
  body (enter_scope self).2 = (Ok a, with_rows t' (enter_scope self).2) →
  transaction body self = (Ok (Some a), with_rows t' self).
Proof.
  intros Hc Hbody.
  unfold transaction, mbind, M_bind, mret, M_ret.
  destruct self as [ser [t tx] flag lvl].
  unfold consistent, with_rows, rows_of, enter_scope, execute,
    on_connection in *. simpl in *.
  destruct flag.
  - destruct Hc as [Hlvl (image & sps & ->)]. simpl in *. rewrite Hbody.
    unfold commit_scope, finally_scope, execute, on_connection. simpl.
    assert ((0 <? lvl + 1)%Z = true) as -> by (apply Z.ltb_lt; lia).
    simpl.
    assert ((lvl + 1 =? 0)%Z = false) as -> by (apply Z.eqb_neq; lia).
    unfold set_txn_nesting_level, set_connection, set_rows. simpl.
    replace (lvl + 1 - 1)%Z with lvl by lia. by destruct sps.
  - destruct Hc as [-> ->]. simpl in *. by rewrite Hbody.
Qed.

(** A nested scope that was left by an exception leaves its savepoint
    behind on SQLite's stack. *)
Lemma aborted_scope_leaves_savepoint {A} (body : M A) self e t' image sps :
  _is_already_in_txn self = true →
  (0 ≤ _txn_nesting_level self)%Z →
  txn (_sqlite_connection self) = InTransaction false image sps →
  body (enter_scope self).2 = (Raise e, with_rows t' (enter_scope self).2) →
  is_Exception e = true →
  txn (_sqlite_connection (transaction body self).2)
  = InTransaction false image (("txn", rows_of self) :: sps).
Proof.
  intros Hflag Hlvl Htx Hbody He.
  unfold transaction, mbind, M_bind, mret, M_ret.
  destruct self as [ser [t tx] flag lvl].
  unfold with_rows, rows_of, enter_scope, execute, on_connection in *.
  simpl in *. subst flag tx. simpl in *. rewrite Hbody.
  unfold rollback_scope, finally_scope, raise, execute, on_connection.
  simpl.
  assert ((0 <? lvl + 1)%Z = true) as -> by (apply Z.ltb_lt; lia).
  assert ((lvl + 1 =? 0)%Z = false) as Hnz by (apply Z.eqb_neq; lia).
  destruct (is_AbortionError e); simpl; [|rewrite He; simpl];
    rewrite Hnz; done.
Qed.

End scopes.

(** ** Queries *)

Section queries.
Import Sqlite SqlLiteHappyStore.

(** [query] is its impl followed by decoding, and leaves the instance as
    it found it. *)
Lemma query_spec self keyprefix start end_ limit_ reverse_ :
  consistent self →
  query keyprefix start end_ limit_ reverse_ self
  = (match (_query_impl keyprefix start end_ limit_ reverse_ self).1 with
     | Ok kvs => decode_pairs (_serializer self) kvs
     | Raise e => Raise e
     end, self).
Proof.
  intros Hc. unfold query, mbind, M_bind at 1.
  set (g := λ c : connection,
    match keyprefix, start, end_ with
    | Some keyprefix, _, _ =>
        limit ← bind_limit limit_;
        results ← select_like (keyprefix +:+ "%") c;
        Ok (limit_opt limit (order_by_key false results))
    | None, Some start, Some end_ =>
        limit ← bind_limit limit_;
        Ok (limit_opt limit (order_by_key reverse_
              (select_where
                 (λ key, String.leb start key && String.leb key end_) c)))
    | None, Some start, None =>
        limit ← bind_limit limit_;
        Ok (limit_opt limit (order_by_key reverse_
              (select_where (λ key, String.leb start key) c)))
    | None, None, Some end_ =>
        limit ← bind_limit limit_;
        Ok (limit_opt limit (order_by_key reverse_
              (select_where (λ key, String.leb key end_) c)))
    | None, None, None => Raise (UnboundLocalError "sql")
    end).
  assert (Hg : ∀ c c', rows c = rows c' → g c = g c').
  { intros c c' Hcc. unfold g, select_like. rewrite Hcc.
    destruct keyprefix, start, end_;
      by rewrite ?(select_where_rows _ c c') by done. }
  change (_query_impl keyprefix start end_ limit_ reverse_)
    with (on_connection (λ c, (g c, c))).
  assert ((on_connection (λ c, (g c, c)) self).1 = g (_sqlite_connection self))
    as -> by by destruct self.
  destruct (g (_sqlite_connection self)) as [kvs|e] eqn:Hgc.
  - by rewrite (ensure_read_ok g self kvs).
  - assert (is_AbortionError e = false ∧ is_Exception e = true) as [He1 He2].
    { unfold g, bind_limit, bind_int, select_like in Hgc.
      destruct keyprefix, start, end_, limit_; simpl in Hgc;
        repeat case_match; cbn in Hgc; simplify_eq; done. }
    by rewrite (ensure_read_raise g self _ Hc Hg Hgc).
Qed.

(** Range mode with at least one bound: the rows within the inclusive
    bounds, ascending or (with [reverse]) descending, cut to [limit] after
    ordering. *)
Lemma range_query_rows self start end_ limit_ reverse_ :
  start ≠ None ∨ end_ ≠ None →
  _query_impl None start end_ limit_ reverse_ self
  = (limit ← bind_limit limit_;
     Ok (limit_opt limit
           ((if reverse_ then reverse else id)
              (filter (λ kv, in_range start end_ kv.1)
                      (ascending_rows self)))), self).
Proof.
  intros Hgiven. unfold _query_impl, on_connection, ascending_rows, rows_of.
  destruct self as [ser c flag lvl]. unfold set_connection. simpl.
  destruct start as [s|], end_ as [e|]; simpl;
    [| | |by destruct Hgiven]; rewrite order_select_where_desc;
    (destruct (bind_limit limit_) as [limit|]; [|done]); cbn;
    do 4 f_equal; apply list_filter_iff; intros [k v]; unfold in_range; simpl.
  by rewrite andb_true_r.
Qed.

(** Prefix mode misses no row: without a limit, every row whose key
    starts with the prefix is among the rows returned. *)
Lemma prefix_query_complete self keyprefix reverse_ k b :
  rows_of self !! k = Some b →
  String.prefix keyprefix k = true →
  (Z.of_nat (String.length keyprefix) < MAX_LIKE_PATTERN_LENGTH)%Z →
  ∃ kvs, _query_impl (Some keyprefix) None None None reverse_ self
         = (Ok kvs, self)
         ∧ (k, b) ∈ kvs.
Proof.
  intros Hk Hp Hlen. unfold _query_impl, on_connection, rows_of in *.
  destruct self as [ser c flag lvl]. unfold set_connection. simpl in *.
  rewrite select_like_short by done. cbn.
  eexists. split; [reflexivity|]. unfold order_by_key.
  rewrite merge_sort_Permutation, elem_of_select_where.
  split; [done|]. by apply like_prefix.
Qed.

End queries.

(** ** Paging through the table *)

Section scanning.
Import Sqlite SqlLiteHappyStore.

Lemma transaction_fetch_page next_key pagesize self :
  consistent self →
  (- 2 ^ 63 ≤ pagesize + 1 ≤ 2 ^ 63 - 1)%Z →
  transaction (fetch_page next_key pagesize) self
  = (Ok (Some (limit (pagesize + 1)
                 (filter (λ kv, String.leb next_key kv.1)
                         (ascending_rows self)))), self).
Proof.
  intros Hc Hfits. unfold fetch_page. rewrite bind_int_within by done.
  apply (transaction_read_ok (λ c, Ok (limit (pagesize + 1)
           (order_by_key false
              (select_where (λ key, String.leb next_key key) c))))).
  - done.
  - intros c c' Hcc. by rewrite (select_where_rows _ c c').
  - by rewrite order_select_where.
Qed.

Lemma fetch_page_never_aborts next_key pagesize self :
  (transaction (fetch_page next_key pagesize) self).1 ≠ Ok None.
Proof.
  unfold fetch_page.
  destruct (bind_int (pagesize + 1)) as [n|e] eqn:Hb;
    [|assert (e = OverflowError) as ->
        by (unfold bind_int in Hb; case_match; congruence)].
  all: unfold transaction, enter_scope, commit_scope, rollback_scope,
    execute, on_connection, raise, mbind, M_bind, result_bind, mret, M_ret.
  all: destruct self as [ser [t tx] flag lvl]; simpl.
  all: destruct flag, tx as [|by_sp image sps]; simpl;
    repeat (case_match; simpl in * ); simplify_eq; done.
Qed.

(** With a page size of at least one, every turn of the loop moves the
    cursor forward, and the pages put together are the rows from the
    cursor on. *)
Lemma scan_from_spec self pagesize (Hc : consistent self)
    (Hps : (1 ≤ pagesize)%Z) (Hmax : (pagesize + 1 ≤ 2 ^ 63 - 1)%Z) n :
  ∀ before rest next_key decoded fuel,
    length rest ≤ n →
    ascending_rows self = before ++ rest →
    filter (λ kv, String.leb next_key kv.1) (ascending_rows self) = rest →
    decode_pairs (_serializer self) rest = Ok decoded →
    n < fuel →
    scan_from fuel next_key pagesize self = (decoded, Exhausted, self).
Proof.
  induction n as [n IH] using lt_wf_ind.
  intros before rest next_key decoded fuel Hlen Hsplit Hrest Hdec Hfuel.
  destruct fuel as [|fuel]; [lia|]. simpl.
  rewrite transaction_fetch_page by (done || lia). rewrite Hrest.
  unfold limit. assert ((pagesize + 1 <? 0)%Z = false) as ->
    by (apply Z.ltb_ge; lia).
  replace (Z.to_nat (pagesize + 1)) with (S (Z.to_nat pagesize)) by lia.
  set (ps := Z.to_nat pagesize) in *.
  assert (1 ≤ ps) as Hps' by lia.
  destruct (decide (length rest < S ps)) as [Hshort|Hlong].
  - rewrite take_ge by lia.
    assert ((Z.of_nat (length rest) <? pagesize + 1)%Z = true) as ->
      by (apply Z.ltb_lt; lia).
    by rewrite Hdec.
  - assert (is_Some (rest !! ps)) as [x Hx] by (apply lookup_lt_is_Some; lia).
    rewrite (take_S_r _ _ x) by done.
    assert ((Z.of_nat (length (take ps rest ++ [x])) <? pagesize + 1)%Z
            = false) as ->.
    { apply Z.ltb_ge. rewrite length_app, length_take. simpl. lia. }
    rewrite last_snoc. destruct x as [k v].
    rewrite removelast_last.
    assert (length (take ps rest) = ps) as Hfront by (rewrite length_take; lia).
    pose proof (take_drop_middle rest ps (k, v) Hx) as Hmid.
    set (front := take ps rest) in *.
    set (back := drop (S ps) rest) in *.
    assert (S ps ≤ n) as Hn by lia.
    clearbody front back. rewrite <-Hmid in Hdec, Hlen, Hsplit.
    apply decode_pairs_app in Hdec as (d1 & d2 & Hd1 & Hd2 & ->).
    rewrite Hd1.
    rewrite (IH (n - ps) ltac:(lia) (before ++ front)
               ((k, v) :: back) k d2 fuel); [done|..|done|lia].
    + rewrite length_app in Hlen. simpl in *. lia.
    + by rewrite <-(assoc_L (++)).
    + rewrite Hsplit, (assoc_L (++)).
      apply (filter_from_cursor _ _ (k, v)).
      * rewrite <-(assoc_L (++)), <-Hsplit. apply ascending_sorted.
      * rewrite <-(assoc_L (++)), <-Hsplit. apply NoDup_ascending_keys.
Qed.

(** With a page size of zero the cursor of the example store stays on
    its first key. *)
Lemma scan_zero_step fuel :
  scan_from (S fuel) "a" 0 example_store = scan_from fuel "a" 0 example_store.
Proof.
  assert (Hpage : transaction (fetch_page "a" 0) example_store
                  = (Ok (Some [("a", "5")]), example_store))
    by (vm_compute; reflexivity).
  cbn [scan_from]. rewrite Hpage. cbn -[scan_from].
  by destruct (scan_from fuel "a" 0 example_store) as [[??]?].
Qed.

End scanning.

(** ** The model on the scenarios of the test suite *)

Section test_suite.
Import SqlLiteHappyStore.

Example test_nested_transactions_commit_rows :
  test_nested_transactions_commit empty_store
  = (Ok (Some ()),
     __init__ (<["d" := "4"]> (<["c" := "3"]> {["a" := "1"]})) bytes_codec).
Proof. vm_compute. reflexivity. Qed.

Example test_nested_transactions_raise_rows :
  test_nested_transactions_raise empty_store
  = (Raise (UserException "Exception"), empty_store).
Proof. vm_compute. reflexivity. Qed.

Example test_query_by_keyprefix :
  (query (Some "a") None None None false query_test_store).1
    = Ok [("a", PyBytes "1"); ("ab", PyBytes "2")] ∧
  (query (Some "d") None None None false query_test_store).1 = Ok [] ∧
  (query (Some "") None None None false query_test_store).1
    = Ok [("a", PyBytes "1"); ("ab", PyBytes "2"); ("c", PyBytes "3")].
Proof. repeat split; vm_compute; reflexivity. Qed.

Example test_query_by_range_and_limit :
  (query None (Some "ab") (Some "c") None false query_test_store).1
    = Ok [("ab", PyBytes "2"); ("c", PyBytes "3")] ∧
  (query None (Some "a") None (Some 2%Z) true query_test_store).1
    = Ok [("c", PyBytes "3"); ("ab", PyBytes "2")] ∧
  (query None None (Some "c") (Some 2%Z) false query_test_store).1
    = Ok [("a", PyBytes "1"); ("ab", PyBytes "2")] ∧
  (query None None (Some "e") (Some 2%Z) true query_test_store).1
    = Ok [("c", PyBytes "3"); ("ab", PyBytes "2")].
Proof. repeat split; vm_compute; reflexivity. Qed.

Example test_scan :
  scan 4 1 query_test_store
  = ([("a", PyBytes "1"); ("ab", PyBytes "2"); ("c", PyBytes "3")],
     Exhausted, query_test_store).
Proof. vm_compute. reflexivity. Qed.

(** [except Exception] does not catch a BaseException such as
    KeyboardInterrupt: the scope neither rolls back nor commits, and the
    transaction stays open in SQLite while the engine believes it is
    closed. *)
Example base_exception_skips_rollback :
  transaction (_ ← set "a" (PyBytes "1"); raise (A := ()) KeyboardInterrupt)
    empty_store
  = (Raise KeyboardInterrupt,
     {| _serializer := bytes_codec;
        _sqlite_connection :=
          Sqlite.Connection {["a" := "1"]} (Sqlite.InTransaction false ∅ []);
        _is_already_in_txn := false;
        _txn_nesting_level := 0 |}).
Proof. vm_compute. reflexivity. Qed.

End test_suite.

(** * The claims *)

(** C1 (the code departs from the claim).  Inside a root transaction, a
    nested scope writes [b], an inner scope of it writes [c] and aborts,
    and then the nested scope aborts too.  The claim has the store back at
    the nested scope's own checkpoint, which holds [a] only.  The code's
    ROLLBACK TO stops at the savepoint the inner scope left behind: the
    store still holds [b], and the root scope commits it. *)
Theorem outer_abort_stops_at_inner_savepoint :
  rows_of before_middle_scope = {["a" := "1"]} ∧
  (middle_scope abort before_middle_scope).1 = Ok None ∧
  rows_of (middle_scope abort before_middle_scope).2
    = <["b" := "2"]> {["a" := "1"]} ∧
  (root_scope abort empty_store).1 = Ok (Some None) ∧
  (root_scope abort empty_store).2
    = SqlLiteHappyStore.__init__ (<["b" := "2"]> {["a" := "1"]}) bytes_codec.
Proof. repeat split; vm_compute; reflexivity. Qed.

(** C2 (the code departs from the claim).  The same nested scope, left by
    AbortionError and left by another exception.  As the claim says, the
    first is swallowed and the second is re-raised as it is; but in both
    cases the pending write [b] of the scope is still in the store
    afterwards, and when the caller catches the exception inside the root
    scope, it is committed. *)
Theorem scope_exit_keeps_pending_write :
  (middle_scope abort before_middle_scope).1 = Ok None ∧
  (SqlLiteHappyStore.has "b" (middle_scope abort before_middle_scope).2).1
    = Ok (Some true) ∧
  (middle_scope (raise (UserException "boom")) before_middle_scope).1
    = Raise (UserException "boom") ∧
  (SqlLiteHappyStore.has "b"
     (middle_scope (raise (UserException "boom")) before_middle_scope).2).1
    = Ok (Some true) ∧
  (root_scope_catching (raise (UserException "boom")) empty_store).2
    = SqlLiteHappyStore.__init__ (<["b" := "2"]> {["a" := "1"]}) bytes_codec.
Proof. repeat split; vm_compute; reflexivity. Qed.



(** C4 (the code departs from the claim).  In every consistent state, on
    a store with any rows, [query()] with no prefix and no bound does not
    return every entry: no branch of [_query_impl] binds [sql], and the
    call raises UnboundLocalError, whatever [limit] and [reverse] are.
    The store is left as it was. *)
Theorem query_without_bounds_raises (self : happystore) (limit : option Z)
    (reverse : bool) :
  consistent self →
  HappyStore.query None None None limit reverse self
  = (Raise (UnboundLocalError "sql"), self).
Proof.
  intros Hc. unfold HappyStore.query.
  rewrite bool_decide_eq_false_2 by (by intros ?). simpl.
  by rewrite query_spec.
Qed.

Lemma query_without_bounds_raises_witness :
  consistent example_store ∧
  HappyStore.query None None None (Some 2%Z) true example_store
  = (Raise (UnboundLocalError "sql"), example_store).
Proof.
  assert (Hc : consistent example_store) by (split; reflexivity).
  split; [exact Hc|].
  exact (query_without_bounds_raises example_store (Some 2%Z) true Hc).
Defined.

(** C5 (the code departs from the claim).  In a store with the keys [A],
    [Ab] and [abc], [query(keyprefix='a')] returns all three rows although
    [A] and [Ab] do not start with [a], and [query(keyprefix='A_')]
    returns [Ab] and [abc] although neither starts with [A_]: LIKE folds
    the case of ASCII letters and reads [_] (and [%]) in the prefix as
    wildcards. *)
Theorem prefix_query_returns_other_keys :
  HappyStore.query (Some "a") None None None false mixed_case_store
    = (Ok [("A", PyBytes "1"); ("Ab", PyBytes "2"); ("abc", PyBytes "3")],
       mixed_case_store) ∧
  String.prefix "a" "A" = false ∧
  String.prefix "a" "Ab" = false ∧
  HappyStore.query (Some "A_") None None None false mixed_case_store
    = (Ok [("Ab", PyBytes "2"); ("abc", PyBytes "3")], mixed_case_store) ∧
  String.prefix "A_" "Ab" = false ∧
  String.prefix "A_" "abc" = false.
Proof. repeat split; vm_compute; reflexivity. Qed.

(** C6, as amended.  In a consistent state, for every page size of at
    least one and at most 2^63 - 2 (the LIMIT that [scan] binds is
    [pagesize + 1], which has to fit SQLite's 64-bit INTEGER), when the
    serializer decodes the table (in ascending key order) to [decoded]:
    [scan] terminates, with any fuel above the number of rows, having
    yielded exactly [decoded] and left the store as it was; [decoded] has
    one pair per row, its keys are strictly ascending, and its pairs are
    the rows with their values decoded. *)
Theorem scan_yields_all_rows (self : happystore) (pagesize : Z)
    (decoded : list (string * pyobj)) :
  consistent self →
  (1 ≤ pagesize ≤ 2 ^ 63 - 2)%Z →
  SqlLiteHappyStore.decode_pairs (_serializer self) (ascending_rows self)
    = Ok decoded →
  (∀ fuel, size (rows_of self) < fuel →
     HappyStore.scan fuel pagesize self
     = (decoded, SqlLiteHappyStore.Exhausted, self)) ∧
  length decoded = size (rows_of self) ∧
  StronglySorted (λ k1 k2, String.le k1 k2 ∧ k1 ≠ k2) decoded.*1 ∧
  (∀ k v, (k, v) ∈ decoded ↔
     ∃ b, rows_of self !! k = Some b
          ∧ deserialize (_serializer self) (PyBytes b) = Ok v).
Proof.
  intros Hc Hps Hdec.
  pose proof (decode_pairs_Forall2 _ _ _ Hdec) as HF.
  assert (length (ascending_rows self) = size (rows_of self)) as Hsize.
  { unfold ascending_rows. rewrite ascending_perm. apply length_map_to_list. }
  assert (decoded.*1 = (ascending_rows self).*1) as Hkeys.
  { clear -HF. induction HF as [|?? ?? [? _]]; [done|].
    rewrite !fmap_cons. by f_equal. }
  split; [|split; [|split]].
  - intros fuel Hfuel. unfold HappyStore.scan, SqlLiteHappyStore.scan.
    apply (scan_from_spec self pagesize Hc (proj1 Hps) ltac:(lia)
             (size (rows_of self)) [] (ascending_rows self)); try done.
    + by rewrite Hsize.
    + apply filter_all. intros kv _. apply Is_true_true, empty_string_least.
  - rewrite <-Hsize. symmetry. by eapply Forall2_length.
  - rewrite Hkeys. apply strictly_ascending.
    + apply ascending_sorted.
    + apply NoDup_ascending_keys.
  - intros k v. split.
    + intros Hin. apply list_elem_of_lookup in Hin as [i Hi].
      destruct (Forall2_lookup_r _ _ _ _ _ HF Hi) as ([k' b] & Hl & Hk & Hv).
      simpl in *. subst k'. exists b. split; [|done].
      apply elem_of_ascending. by eapply list_elem_of_lookup_2.
    + intros (b & Hb & Hv). apply elem_of_ascending in Hb.
      apply list_elem_of_lookup in Hb as [i Hi].
      destruct (Forall2_lookup_l _ _ _ _ _ HF Hi) as ([k' v'] & Hl & Hk & Hv').
      simpl in *. subst k'. eapply list_elem_of_lookup_2.
      rewrite Hl. do 2 f_equal. congruence.
Qed.

Lemma scan_yields_all_rows_witness :
  consistent example_store ∧
  (1 ≤ 1 ≤ 2 ^ 63 - 2)%Z ∧
  SqlLiteHappyStore.decode_pairs (_serializer example_store)
      (ascending_rows example_store)
    = Ok [("a", PyBytes "5"); ("ab", PyBytes "10"); ("abc", PyBytes "15");
          ("c", PyBytes "3")] ∧
  HappyStore.scan 5 1 example_store
    = ([("a", PyBytes "5"); ("ab", PyBytes "10"); ("abc", PyBytes "15");
        ("c", PyBytes "3")], SqlLiteHappyStore.Exhausted, example_store).
Proof.
  assert (Hc : consistent example_store) by (split; reflexivity).
  assert (Hd : SqlLiteHappyStore.decode_pairs (_serializer example_store)
                 (ascending_rows example_store)
               = Ok [("a", PyBytes "5"); ("ab", PyBytes "10");
                     ("abc", PyBytes "15"); ("c", PyBytes "3")])
    by (vm_compute; reflexivity).
  split; [exact Hc|]. split; [lia|]. split; [exact Hd|].
  refine (proj1 (scan_yields_all_rows example_store 1 _ Hc _ Hd) 5 _).
  - lia.
  - vm_compute. lia.
Defined.

(** C6, as stated, fails on each side of the amendment, on the four rows
    of the example store.  With a page size of zero, [scan] yields nothing
    and is still in its loop after any number of turns.  With a page size
    of 2^63 - 1, binding the LIMIT 2^63 raises OverflowError on the first
    page and nothing is yielded.  And in the store that the shipped
    [RawSerializer] wrote those rows to, [scan] raises on the first value
    that it has to decode and yields nothing. *)
Lemma scan_does_not_yield_all_rows :
  size (rows_of example_store) = 4 ∧
  (∀ fuel, HappyStore.scan fuel 0 example_store
           = ([], SqlLiteHappyStore.Looping, example_store)) ∧
  (∀ fuel, HappyStore.scan (S fuel) (2 ^ 63 - 1) example_store
           = ([], SqlLiteHappyStore.Raised OverflowError, example_store)) ∧
  serialize RawSerializer (PyBytes "5") = Ok "5" ∧
  rows_of raw_store = rows_of example_store ∧
  (∀ fuel, HappyStore.scan (S fuel) 1 raw_store
           = ([], SqlLiteHappyStore.Raised SerializationError, raw_store)).
Proof.
  split; [vm_compute; reflexivity|]. split; [|split; [|split; [|split]]].
  - assert (Hloop : ∀ fuel,
      SqlLiteHappyStore.scan_from fuel "a" 0 example_store
      = ([], SqlLiteHappyStore.Looping, example_store)).
    { induction fuel as [|fuel IH]; [done|]. by rewrite scan_zero_step. }
    intros [|fuel]; [done|].
    unfold HappyStore.scan, SqlLiteHappyStore.scan.
    assert (Hpage : SqlLiteHappyStore.transaction
                      (SqlLiteHappyStore.fetch_page "" 0) example_store
                    = (Ok (Some [("a", "5")]), example_store))
      by (vm_compute; reflexivity).
    cbn [SqlLiteHappyStore.scan_from]. rewrite Hpage.
    cbn -[SqlLiteHappyStore.scan_from]. by rewrite Hloop.
  - intros fuel. unfold HappyStore.scan, SqlLiteHappyStore.scan.
    assert (Hpage : SqlLiteHappyStore.transaction
                      (SqlLiteHappyStore.fetch_page "" (2 ^ 63 - 1))
                      example_store
                    = (Raise OverflowError, example_store))
      by (vm_compute; reflexivity).
    cbn [SqlLiteHappyStore.scan_from]. by rewrite Hpage.
  - reflexivity.
  - reflexivity.
  - intros fuel. unfold HappyStore.scan, SqlLiteHappyStore.scan.
    assert (Hpage : SqlLiteHappyStore.transaction
                      (SqlLiteHappyStore.fetch_page "" 1) raw_store
                    = (Ok (Some [("a", "5"); ("ab", "10")]), raw_store))
      by (vm_compute; reflexivity).
    cbn [SqlLiteHappyStore.scan_from]. by rewrite Hpage.
Qed.




(** C8 (the code departs from the claim).  [RawSerializer.serialize]
    accepts every bytes object and returns it, but
    [RawSerializer.deserialize] raises SerializationError on those very
    bytes: it tests the type of the builtin [bytes], not of its
    argument. *)
Theorem RawSerializer_cannot_read_back (b : string) :
  serialize RawSerializer (PyBytes b) = Ok b ∧
  deserialize RawSerializer (PyBytes b) = Raise SerializationError.
Proof. split; reflexivity. Qed.



(** * Further properties *)

(** ** The engine: more on writes, and [bulk_delete] *)

Section more_engine.
Import Sqlite SqlLiteHappyStore.

Lemma with_rows_same self : with_rows (rows_of self) self = self.
Proof. by destruct self as [? [] ? ?]. Qed.

Lemma with_rows_with_rows t1 t2 self :
  with_rows t2 (with_rows t1 self) = with_rows t2 self.
Proof. by destruct self as [? [] ? ?]. Qed.

Lemma lift_bind {A B} (r : result A) (f : A → M B) self :
  (a ← lift r; f a) self
  = match r with Ok a => f a self | Raise e => (Raise e, self) end.
Proof. unfold lift, mbind, M_bind. by destruct r. Qed.

(** [set] in both cases of the serializer. *)
Lemma set_effect key value self :
  consistent self →
  set key value self =
    match serialize (_serializer self) value with
    | Ok b => (Ok (Some ()), with_rows (<[key := b]> (rows_of self)) self)
    | Raise e => (Raise e, self)
    end.
Proof.
  intros Hc. destruct (serialize (_serializer self) value) as [b|e] eqn:Hs.
  - by apply set_spec.
  - unfold set. by rewrite lift_bind, Hs.
Qed.

Lemma prepare_cases n :
  ((Z.of_nat n ≤ MAX_VARIABLE_NUMBER)%Z ∧ prepare n = Ok ()) ∨
  ((MAX_VARIABLE_NUMBER < Z.of_nat n)%Z
   ∧ prepare n = Raise (OperationalError "too many SQL variables")).
Proof.
  destruct (decide (Z.of_nat n ≤ MAX_VARIABLE_NUMBER)%Z).
  - left. split; [done|]. by apply prepare_within.
  - right. split; [lia|]. apply prepare_beyond. lia.
Qed.

(** [bulk_set] in all cases of the serializer and of the list. *)
Lemma bulk_set_effect pairs self :
  consistent self →
  bulk_set pairs self =
    match mapM (λ kv, b ← serialize (_serializer self) kv.2; mret (kv.1, b))
               pairs with
    | Ok [] => (Raise (OperationalError "incomplete input"), self)
    | Ok kbs =>
        match prepare (2 * length kbs) with
        | Ok _ =>
            (Ok (Some ()),
             with_rows (foldl (λ t kv, <[kv.1 := kv.2]> t) (rows_of self) kbs)
                       self)
        | Raise e => (Raise e, self)
        end
    | Raise e => (Raise e, self)
    end.
Proof.
  intros Hc. unfold bulk_set. rewrite lift_bind.
  destruct (mapM _ pairs) as [[|kb kbs]|e]; [| |done].
  - by apply ensure_replace_nil.
  - unfold _bulk_set_impl.
    destruct (prepare_cases (2 * length (kb :: kbs))) as [[Hn ->]|[Hn ->]].
    + apply ensure_replace; [done..|lia].
    + apply ensure_replace_too_many; [done|lia].
Qed.

(** [bulk_delete]: the answers are read before anything is deleted; with
    more keys than a statement takes parameters nothing is read or
    deleted. *)
Lemma bulk_delete_spec keys self :
  consistent self →
  bulk_delete keys self =
    match prepare (length keys) with
    | Ok _ =>
        (Ok (Some ((λ key, bool_decide (is_Some (rows_of self !! key)))
                   <$> keys)),
         with_rows (filter (λ kv, negb (bool_decide (kv.1 ∈ keys)))
                           (rows_of self)) self)
    | Raise e => (Raise e, self)
    end.
Proof.
  intros Hc. unfold bulk_delete, _bulk_delete_impl, delete_where.
  destruct (prepare_cases (length keys)) as [[Hn ->]|[Hn ->]].
  2:{ unfold_scope. open_store self. destruct flag; simpl; [done|].
      by destruct Hc as [-> ->]. }
  unfold_scope.
  assert (∀ c, rows c = rows_of self →
    (λ key, bool_decide
       (key ∈ (list_to_set
                 (select_where (λ k, bool_decide (k ∈ keys)) c).*1
               : gset string))) <$> keys
    = (λ key, bool_decide (is_Some (rows_of self !! key))) <$> keys) as Hfound.
  { intros c Hrows. apply list_fmap_ext. intros i key Hkey.
    apply bool_decide_ext. rewrite elem_of_list_to_set, list_elem_of_fmap.
    split.
    - intros ([k v] & -> & Hin). apply elem_of_select_where in Hin as [Hin _].
      rewrite <-Hrows. simpl. eauto.
    - intros [v Hv]. exists (key, v). split; [done|].
      apply elem_of_select_where. rewrite Hrows. split; [done|].
      apply bool_decide_eq_true. by eapply list_elem_of_lookup_2. }
  open_store self. destruct flag; simpl.
  - destruct Hc as [_ (image & sps & ->)]. simpl.
    by rewrite (Hfound (Connection t (InTransaction false image sps))).
  - destruct Hc as [-> ->]. simpl.
    by rewrite (Hfound (Connection t (InTransaction false t []))).
Qed.

Lemma bulk_delete_lookup (keys : list string) (t : table) k :
  filter (λ kv : string * string, negb (bool_decide (kv.1 ∈ keys))) t !! k
  = if bool_decide (k ∈ keys) then None else t !! k.
Proof.
  destruct (bool_decide (k ∈ keys)) eqn:HP.
  - apply map_lookup_filter_None. right. intros x _. simpl. rewrite HP.
    by intros [].
  - apply option_eq. intros x. rewrite map_lookup_filter_Some. simpl.
    rewrite HP. split; [by intros [? _]|]. by intros.
Qed.

End more_engine.

(** ** Calls of the public methods *)

Section caller_code.
Import Sqlite SqlLiteHappyStore.

Lemma mapM_result_raise {A B} (f : A → result B) l e :
  mapM f l = Raise e → ∃ x, x ∈ l ∧ f x = Raise e.
Proof.
  induction l as [|x l IH]; [done|]. simpl.
  destruct (f x) as [y|e'] eqn:Hx; simpl.
  - destruct (mapM f l) as [l'|e'] eqn:Hl; simpl; [done|].
    intros [= ->]. destruct IH as (x' & Hin & Hx'); [done|].
    exists x'. split; [by right|done].
  - intros [= ->]. exists x. split; [by left|done].
Qed.

Lemma check_key_raises key e : HappyStore.check_key key = Raise e →
  is_Exception e = true.
Proof. destruct key; simpl; by intros [= <-]. Qed.

Lemma check_str_or_None_raises x e :
  HappyStore.check_str_or_None x = Raise e → is_Exception e = true.
Proof. destruct x; simpl; by intros [= <-]. Qed.

Lemma check_keys_raises keys e :
  mapM HappyStore.check_key keys = Raise e → is_Exception e = true.
Proof.
  intros (key & _ & Hkey)%mapM_result_raise. by eapply check_key_raises.
Qed.

Lemma check_pairs_raises (pairs : list (pyobj * pyobj)) e :
  mapM (λ kv, key ← HappyStore.check_key kv.1; mret (key, kv.2)) pairs
    = Raise e →
  is_Exception e = true.
Proof.
  intros (kv & _ & Hkv)%mapM_result_raise.
  destruct (HappyStore.check_key kv.1) eqn:Hk; [done|].
  simpl in Hkv. injection Hkv as <-. by eapply check_key_raises.
Qed.

(** What each method of the engine leaves behind and what it may raise,
    in every consistent state. *)
Lemma engine_get_effect key self :
  consistent self → (get key self).2 = self.
Proof.
  intros Hc. rewrite get_spec by done.
  by destruct (rows_of self !! key) as [b|]; [destruct (deserialize _ _)|].
Qed.

Lemma engine_query_effect kp st en lim rev self :
  consistent self → (HappyStore.query kp st en lim rev self).2 = self.
Proof.
  intros Hc. unfold HappyStore.query.
  destruct (_ && _); [done|]. by rewrite query_spec.
Qed.

Lemma engine_get_raises key self e :
  consistent self → raises_only_Exception (_serializer self) →
  (get key self).1 = Raise e → is_Exception e = true.
Proof.
  intros Hc [_ Hdes]. rewrite get_spec by done.
  destruct (rows_of self !! key) as [b|]; [|by intros [= <-]].
  destruct (deserialize _ _) eqn:Hd; simpl; [done|]. intros [= <-]. eauto.
Qed.

Lemma engine_set_raises key value self e :
  consistent self → raises_only_Exception (_serializer self) →
  (set key value self).1 = Raise e → is_Exception e = true.
Proof.
  intros Hc [Hser _]. rewrite set_effect by done.
  destruct (serialize _ _) eqn:Hs; simpl; [done|]. intros [= <-]. eauto.
Qed.

Lemma engine_bulk_get_raises keys self e :
  consistent self → raises_only_Exception (_serializer self) →
  (bulk_get keys self).1 = Raise e → is_Exception e = true.
Proof.
  intros Hc [_ Hdes]. rewrite bulk_get_spec by done.
  destruct (prepare_cases (length keys)) as [[_ ->]|[_ ->]];
    cbn [mbind result_bind]; [|by intros [= <-]].
  destruct (mapM _ keys) as [|e'] eqn:Hm; simpl; [done|]. intros [= <-].
  apply mapM_result_raise in Hm as (key & _ & Hitem).
  unfold bulk_get_item in Hitem. destruct (rows_of self !! key); [|done].
  destruct (deserialize _ _) eqn:Hd; [done|].
  simpl in Hitem. injection Hitem as <-. eauto.
Qed.

Lemma engine_bulk_set_raises pairs self e :
  consistent self → raises_only_Exception (_serializer self) →
  (bulk_set pairs self).1 = Raise e → is_Exception e = true.
Proof.
  intros Hc [Hser _]. rewrite bulk_set_effect by done.
  destruct (mapM _ pairs) as [[|kb kbs]|e'] eqn:Hm.
  - by intros [= <-].
  - destruct (prepare_cases (2 * length (kb :: kbs))) as [[_ ->]|[_ ->]];
      [done|by intros [= <-]].
  - intros [= <-]. apply mapM_result_raise in Hm as (kv & _ & Hkv).
    destruct (serialize _ _) eqn:Hs; [done|].
    simpl in Hkv. injection Hkv as <-. eauto.
Qed.

Lemma engine_query_raises kp st en lim rev self e :
  consistent self → raises_only_Exception (_serializer self) →
  (HappyStore.query kp st en lim rev self).1 = Raise e →
  is_Exception e = true.
Proof.
  intros Hc [_ Hdes]. unfold HappyStore.query.
  destruct (_ && _); [by intros [= <-]|].
  rewrite query_spec by done.
  destruct (_query_impl _ _ _ _ _ _).1 as [kvs|e'] eqn:Hq; simpl.
  - destruct (decode_pairs _ _) as [|e'] eqn:Hm; simpl; [done|].
    intros [= <-]. apply mapM_result_raise in Hm as (kv & _ & Hkv).
    destruct (deserialize _ _) eqn:Hd; [done|].
    simpl in Hkv. injection Hkv as <-. eauto.
  - intros [= <-]. unfold _query_impl, on_connection in Hq.
    destruct self as [? c ? ?]. simpl in Hq.
    unfold bind_limit, bind_int, select_like in Hq.
    destruct kp, st, en, lim; simpl in Hq;
      repeat case_match; cbn in Hq; simplify_eq; done.
Qed.

(** A call changes nothing of the instance but the rows. *)
Lemma call_effect op self :
  consistent self → ∃ t, (call op self).2 = with_rows t self.
Proof.
  intros Hc.
  assert (∃ t, self = with_rows t self) as Hsame
    by (exists (rows_of self); by rewrite with_rows_same).
  destruct op as [key|key|key value|key|keys|pairs|keys|kp st en lim rev];
    unfold call; unfold mbind at 1, M_bind at 1.
  - unfold HappyStore.get. rewrite lift_bind.
    destruct (HappyStore.check_key key) as [k|]; [|done].
    pose proof (engine_get_effect k self Hc) as Hget.
    destruct (get k self) as [[] s]; simpl in *; by subst s.
  - unfold HappyStore.has. rewrite lift_bind.
    destruct (HappyStore.check_key key) as [k|]; [|done].
    by rewrite has_spec.
  - unfold HappyStore.set. rewrite lift_bind.
    destruct (HappyStore.check_key key) as [k|]; [|done].
    rewrite set_effect by done. destruct (serialize _ _); [by eexists|done].
  - unfold HappyStore.delete. rewrite lift_bind.
    destruct (HappyStore.check_key key) as [k|]; [|done].
    rewrite delete_spec by done. by eexists.
  - unfold HappyStore.bulk_get. rewrite lift_bind.
    destruct (mapM _ keys) as [ks|]; [|done].
    rewrite bulk_get_spec by done.
    by destruct (prepare _); cbn; [destruct (mapM _ ks)|].
  - unfold HappyStore.bulk_set. rewrite lift_bind.
    destruct (mapM _ pairs) as [kvs|]; [|done].
    rewrite bulk_set_effect by done.
    destruct (mapM _ kvs) as [[|kb kbs]|e]; [done| |done].
    destruct (prepare _); [by eexists|done].
  - unfold HappyStore.bulk_delete. rewrite lift_bind.
    destruct (mapM _ keys) as [ks|]; [|done].
    rewrite bulk_delete_spec by done.
    destruct (prepare _); [by eexists|done].
  - unfold HappyStore.query_of. rewrite lift_bind.
    destruct (HappyStore.check_str_or_None kp) as [kp'|]; [|done].
    rewrite lift_bind.
    destruct (HappyStore.check_str_or_None st) as [st'|]; [|done].
    rewrite lift_bind.
    destruct (HappyStore.check_str_or_None en) as [en'|]; [|done].
    pose proof (engine_query_effect kp' st' en' lim rev self Hc) as Hq.
    destruct (HappyStore.query _ _ _ _ _ _) as [[] s]; simpl in *; by subst s.
Qed.

(** With a serializer that raises nothing outside Exception, neither
    does a call. *)
Lemma call_raises op self e :
  consistent self → raises_only_Exception (_serializer self) →
  (call op self).1 = Raise e → is_Exception e = true.
Proof.
  intros Hc Hser.
  destruct op as [key|key|key value|key|keys|pairs|keys|kp st en lim rev];
    unfold call; unfold mbind at 1, M_bind at 1.
  - unfold HappyStore.get. rewrite lift_bind.
    destruct (HappyStore.check_key key) as [k|e'] eqn:Hk;
      [|intros [= <-]; by eapply check_key_raises].
    pose proof (engine_get_raises k self e Hc Hser) as Hget.
    destruct (get k self) as [[] s]; simpl in *; [done|].
    intros [= <-]. by apply Hget.
  - unfold HappyStore.has. rewrite lift_bind.
    destruct (HappyStore.check_key key) as [k|e'] eqn:Hk;
      [|intros [= <-]; by eapply check_key_raises].
    by rewrite has_spec.
  - unfold HappyStore.set. rewrite lift_bind.
    destruct (HappyStore.check_key key) as [k|e'] eqn:Hk;
      [|intros [= <-]; by eapply check_key_raises].
    pose proof (engine_set_raises k value self e Hc Hser) as Hset.
    destruct (set k value self) as [[] s]; simpl in *; [done|].
    intros [= <-]. by apply Hset.
  - unfold HappyStore.delete. rewrite lift_bind.
    destruct (HappyStore.check_key key) as [k|e'] eqn:Hk;
      [|intros [= <-]; by eapply check_key_raises].
    by rewrite delete_spec.
  - unfold HappyStore.bulk_get. rewrite lift_bind.
    destruct (mapM _ keys) as [ks|e'] eqn:Hk;
      [|intros [= <-]; by eapply check_keys_raises].
    pose proof (engine_bulk_get_raises ks self e Hc Hser) as Hget.
    destruct (bulk_get ks self) as [[] s]; simpl in *; [done|].
    intros [= <-]. by apply Hget.
  - unfold HappyStore.bulk_set. rewrite lift_bind.
    destruct (mapM _ pairs) as [kvs|e'] eqn:Hk;
      [|intros [= <-]; by eapply check_pairs_raises].
    pose proof (engine_bulk_set_raises kvs self e Hc Hser) as Hset.
    destruct (bulk_set kvs self) as [[] s]; simpl in *; [done|].
    intros [= <-]. by apply Hset.
  - unfold HappyStore.bulk_delete. rewrite lift_bind.
    destruct (mapM _ keys) as [ks|e'] eqn:Hk;
      [|intros [= <-]; by eapply check_keys_raises].
    rewrite bulk_delete_spec by done.
    destruct (prepare_cases (length ks)) as [[_ ->]|[_ ->]];
      [done|by intros [= <-]].
  - unfold HappyStore.query_of. rewrite lift_bind.
    destruct (HappyStore.check_str_or_None kp) as [kp'|e'] eqn:Hkp;
      [|intros [= <-]; by eapply check_str_or_None_raises].
    rewrite lift_bind.
    destruct (HappyStore.check_str_or_None st) as [st'|e'] eqn:Hst;
      [|intros [= <-]; by eapply check_str_or_None_raises].
    rewrite lift_bind.
    destruct (HappyStore.check_str_or_None en) as [en'|e'] eqn:Hen;
      [|intros [= <-]; by eapply check_str_or_None_raises].
    pose proof (engine_query_raises kp' st' en' lim rev self e Hc Hser) as Hq.
    destruct (HappyStore.query _ _ _ _ _ _) as [[] s]; simpl in *; [done|].
    intros [= <-]. by apply Hq.
Qed.

End caller_code.

(** ** Blocks of caller code inside and outside scopes *)

Section scopes_in_general.
Import SqlLiteHappyStore.

(** Above the savepoint of a scope there are only savepoints called
    [txn], so ROLLBACK TO and RELEASE always find one. *)
Lemma find_savepoint_top extra r sps :
  Forall (λ sp : string * table, sp.1 = "txn") extra →
  ∃ img extra',
    Sqlite.find_savepoint "txn" (extra ++ ("txn", r) :: sps)
      = Some (img, extra' ++ sps)
    ∧ Forall (λ sp : string * table, sp.1 = "txn") extra'.
Proof.
  intros Hnamed. destruct extra as [|[n img] extra]; simpl.
  - exists r, []. by split.
  - inversion_clear Hnamed as [|?? Hn Hrest]. simpl in Hn. subst n.
    exists img, (extra ++ [("txn", r)]). rewrite <-(assoc_L (++)). simpl.
    split; [done|]. apply Forall_app. split; [done|]. by repeat constructor.
Qed.

Lemma enter_scope_inside self image sps :
  _is_already_in_txn self = true →
  Sqlite.txn (_sqlite_connection self) = Sqlite.InTransaction false image sps →
  _is_already_in_txn (enter_scope self).2 = true ∧
  _txn_nesting_level (enter_scope self).2 = (_txn_nesting_level self + 1)%Z ∧
  _serializer (enter_scope self).2 = _serializer self ∧
  Sqlite.txn (_sqlite_connection (enter_scope self).2)
    = Sqlite.InTransaction false image (("txn", rows_of self) :: sps).
Proof.
  destruct self as [ser [t tx] flag lvl]. simpl. intros -> ->. by cbn.
Qed.

(** A nested scope around a block that keeps the engine inside its
    transaction keeps it there too, one level lower, and ends as
    [scope_outcome] says. *)
Lemma transaction_inside {A} (body : M A) self image sps :
  _is_already_in_txn self = true →
  (0 ≤ _txn_nesting_level self)%Z →
  Sqlite.txn (_sqlite_connection self) = Sqlite.InTransaction false image sps →
  kept_inside image (("txn", rows_of self) :: sps)
              (_txn_nesting_level self + 1) (_serializer self)
              (body (enter_scope self).2) →
  kept_inside image sps (_txn_nesting_level self) (_serializer self)
              (transaction body self) ∧
  (transaction body self).1 = scope_outcome (body (enter_scope self).2).1.
Proof.
  intros Hflag Hlvl Htx.
  destruct self as [ser [t tx] flag lvl]. simpl in *. subst flag tx.
  unfold kept_inside, scope_outcome, transaction, enter_scope, execute,
    on_connection, rows_of, mbind, M_bind, mret, M_ret. simpl.
  destruct (body _) as [r1 [ser1 [t1 tx1] flag1 lvl1]]. simpl.
  intros (-> & -> & -> & (extra & -> & Hnamed) & Hexn).
  destruct (find_savepoint_top extra t sps Hnamed)
    as (img & extra' & Hfind & Hnamed').
  assert ((0 <? lvl + 1)%Z = true) as Hpos by (apply Z.ltb_lt; lia).
  assert ((lvl + 1 =? 0)%Z = false) as Hnz by (apply Z.eqb_neq; lia).
  assert (∀ l : list (string * table),
            match l with [] | _ => Sqlite.InTransaction false image l end
            = Sqlite.InTransaction false image l) as Hmatch by by intros [].
  destruct r1 as [a|e]; simpl.
  - unfold commit_scope, finally_scope, execute, on_connection. simpl.
    rewrite Hpos. simpl. rewrite Hfind. simpl. rewrite Hnz. simpl.
    rewrite Hmatch. repeat split; try done; try lia. by exists extra'.
  - specialize (Hexn e eq_refl).
    unfold rollback_scope, finally_scope, raise, execute, on_connection.
    destruct (is_AbortionError e) eqn:Habort; simpl.
    + rewrite Hpos. simpl. rewrite Hfind. simpl. rewrite Hnz. simpl.
      repeat split; try done; try lia.
      exists (("txn", img) :: extra'). split; [done|]. by constructor.
    + rewrite Hexn. simpl. rewrite Hpos. simpl. rewrite Hfind. simpl.
      rewrite Hnz. simpl. repeat split; try done; try lia.
      * exists (("txn", img) :: extra'). split; [done|]. by constructor.
      * by intros ? [= <-].
Qed.

(** Every block of caller code keeps the engine inside the transaction
    it runs in. *)
Lemma run_inside b :
  ∀ self image sps,
    _is_already_in_txn self = true →
    (0 ≤ _txn_nesting_level self)%Z →
    Sqlite.txn (_sqlite_connection self) = Sqlite.InTransaction false image sps →
    raises_only_Exception (_serializer self) →
    kept_inside image sps (_txn_nesting_level self) (_serializer self)
                (run b self).
Proof.
  induction b as [op| |tag|b1 IH1 b2 IH2|body IH|body IH1 handler IH2];
    intros self image sps Hflag Hlvl Htx Hser.
  - assert (consistent self) as Hc.
    { unfold consistent. rewrite Hflag. eauto. }
    destruct (call_effect op self Hc) as [t Ht].
    unfold kept_inside. simpl. rewrite Ht.
    destruct self as [ser [t0 tx] flag lvl]. simpl in *.
    repeat split; try done.
    + exists []. by split.
    + intros e He. by eapply (call_raises op _ e Hc).
  - unfold kept_inside. simpl. repeat split; try done.
    + exists []. by split.
    + by intros e [= <-].
  - unfold kept_inside. simpl. repeat split; try done.
    + exists []. by split.
    + by intros e [= <-].
  - specialize (IH1 self image sps Hflag Hlvl Htx Hser).
    simpl. unfold mbind, M_bind.
    destruct (run b1 self) as [[[]|e] s1] eqn:H1; [|done].
    destruct IH1 as (Hf1 & Hl1 & Hs1 & (extra1 & Htx1 & Hn1) & _).
    simpl in *.
    specialize (IH2 s1 image (extra1 ++ sps) Hf1 ltac:(lia) Htx1
                  ltac:(by rewrite Hs1)).
    destruct IH2 as (Hf2 & Hl2 & Hs2 & (extra2 & Htx2 & Hn2) & He2).
    repeat split; try congruence; [|done].
    exists (extra2 ++ extra1). rewrite <-(assoc_L (++)). split; [done|].
    apply Forall_app. by split.
  - destruct (enter_scope_inside self image sps Hflag Htx)
      as (Hf & Hl & Hs & Ht).
    pose proof (IH (enter_scope self).2 image (("txn", rows_of self) :: sps)
                  Hf ltac:(lia) Ht ltac:(by rewrite Hs)) as Hbody.
    rewrite Hl, Hs in Hbody.
    destruct (transaction_inside (run body) self image sps Hflag Hlvl Htx
                Hbody) as [Hkept _].
    simpl. unfold mbind, M_bind at 1.
    unfold kept_inside in *.
    destruct (transaction (run body) self) as [[a|e] s1]; simpl in *.
    + destruct Hkept as (? & ? & ? & ? & ?). by repeat split.
    + destruct Hkept as (? & ? & ? & ? & He). repeat split; try done.
      intros e' [= <-]. by apply He.
  - specialize (IH1 self image sps Hflag Hlvl Htx Hser).
    simpl. unfold try_except.
    destruct (run body self) as [[[]|e] s1] eqn:H1; [done|].
    destruct IH1 as (Hf1 & Hl1 & Hs1 & (extra1 & Htx1 & Hn1) & He1).
    simpl in *. rewrite (He1 e eq_refl).
    specialize (IH2 s1 image (extra1 ++ sps) Hf1 ltac:(lia) Htx1
                  ltac:(by rewrite Hs1)).
    destruct IH2 as (Hf2 & Hl2 & Hs2 & (extra2 & Htx2 & Hn2) & He2).
    repeat split; try congruence; [|done].
    exists (extra2 ++ extra1). rewrite <-(assoc_L (++)). split; [done|].
    apply Forall_app. by split.
Qed.

End scopes_in_general.

Section root_scopes.
Import SqlLiteHappyStore.

(** A root scope around such a block commits the rows the block left, or
    restores the state from before the scope. *)
Lemma transaction_root {A} (body : M A) self :
  consistent self → _is_already_in_txn self = false →
  kept_inside (rows_of self) [] 0 (_serializer self)
              (body (enter_scope self).2) →
  match (transaction body self).1 with
  | Ok (Some _) =>
      (transaction body self).2
      = with_rows (rows_of (body (enter_scope self).2).2) self
  | Ok None => (transaction body self).2 = self
  | Raise e => (transaction body self).2 = self
               ∧ is_Exception e = true ∧ is_AbortionError e = false
  end ∧
  (transaction body self).1 = scope_outcome (body (enter_scope self).2).1.
Proof.
  intros Hc Hflag.
  destruct self as [ser [t tx] flag lvl]. unfold consistent in Hc.
  simpl in *. subst flag. destruct Hc as [-> ->].
  unfold kept_inside, scope_outcome, transaction, enter_scope, execute,
    on_connection, rows_of, with_rows, mbind, M_bind, mret, M_ret. simpl.
  destruct (body _) as [r1 [ser1 [t1 tx1] flag1 lvl1]]. simpl.
  intros (-> & -> & -> & (extra & -> & Hnamed) & Hexn).
  destruct r1 as [a|e]; simpl.
  - done.
  - specialize (Hexn e eq_refl).
    unfold rollback_scope, finally_scope, raise, execute, on_connection.
    destruct (is_AbortionError e) eqn:Habort; simpl; [done|].
    by rewrite Hexn.
Qed.

Lemma enter_scope_root self :
  consistent self → _is_already_in_txn self = false →
  _is_already_in_txn (enter_scope self).2 = true ∧
  _txn_nesting_level (enter_scope self).2 = 0%Z ∧
  _serializer (enter_scope self).2 = _serializer self ∧
  Sqlite.txn (_sqlite_connection (enter_scope self).2)
    = Sqlite.InTransaction false (rows_of self) [].
Proof.
  destruct self as [ser [t tx] flag lvl]. unfold consistent. simpl.
  intros Hc ->. by destruct Hc as [-> ->].
Qed.

Lemma run_in_root_scope body self :
  consistent self → _is_already_in_txn self = false →
  raises_only_Exception (_serializer self) →
  kept_inside (rows_of self) [] 0 (_serializer self)
              (run body (enter_scope self).2).
Proof.
  intros Hc Hflag Hser.
  destruct (enter_scope_root self Hc Hflag) as (Hf & Hl & Hs & Ht).
  pose proof (run_inside body (enter_scope self).2 (rows_of self) []
                Hf ltac:(lia) Ht ltac:(by rewrite Hs)) as Hbody.
  by rewrite Hl, Hs in Hbody.
Qed.

(** Outside every scope, a block changes nothing of the instance but the
    rows. *)
Lemma run_outside b :
  ∀ self,
    consistent self → _is_already_in_txn self = false →
    raises_only_Exception (_serializer self) →
    (∃ t, (run b self).2 = with_rows t self) ∧
    (∀ e, (run b self).1 = Raise e → is_Exception e = true).
Proof.
  assert (Hnext : ∀ t self,
    consistent self → _is_already_in_txn self = false →
    raises_only_Exception (_serializer self) →
    consistent (with_rows t self)
    ∧ _is_already_in_txn (with_rows t self) = false
    ∧ raises_only_Exception (_serializer (with_rows t self))).
  { intros t self Hc Hflag Hser. split; [by apply consistent_with_rows|].
    by destruct self as [? [] ? ?]. }
  induction b as [op| |tag|b1 IH1 b2 IH2|body IH|body IH1 handler IH2];
    intros self Hc Hflag Hser.
  - split; [by apply call_effect|]. intros e. by apply call_raises.
  - split; [|by intros e [= <-]]. exists (rows_of self).
    by rewrite with_rows_same.
  - split; [|by intros e [= <-]]. exists (rows_of self).
    by rewrite with_rows_same.
  - destruct (IH1 self Hc Hflag Hser) as [[t1 Ht1] He1].
    simpl. unfold mbind, M_bind.
    destruct (run b1 self) as [[[]|e] s1]; simpl in *; [|by eauto].
    subst s1. destruct (Hnext t1 self Hc Hflag Hser) as (Hc1 & Hf1 & Hs1).
    destruct (IH2 _ Hc1 Hf1 Hs1) as [[t2 Ht2] He2].
    split; [|done]. exists t2. by rewrite Ht2, with_rows_with_rows.
  - pose proof (proj1 (transaction_root (run body) self Hc Hflag
                  (run_in_root_scope body self Hc Hflag Hser))) as Hroot.
    simpl. unfold mbind, M_bind.
    destruct (transaction (run body) self) as [[[a|]|e] s1]; simpl in *.
    + split; [by eexists|]. by intros e.
    + split; [|by intros e]. subst s1. exists (rows_of self).
      by rewrite with_rows_same.
    + destruct Hroot as (-> & He & _). split.
      * exists (rows_of self). by rewrite with_rows_same.
      * by intros e' [= <-].
  - destruct (IH1 self Hc Hflag Hser) as [[t1 Ht1] He1].
    simpl. unfold try_except.
    destruct (run body self) as [[[]|e] s1]; simpl in *; [by eauto|].
    rewrite (He1 e eq_refl).
    subst s1. destruct (Hnext t1 self Hc Hflag Hser) as (Hc1 & Hf1 & Hs1).
    destruct (IH2 _ Hc1 Hf1 Hs1) as [[t2 Ht2] He2].
    split; [|done]. exists t2. by rewrite Ht2, with_rows_with_rows.
Qed.

End root_scopes.

(** ** Serializers and states used below *)

Section more_serializers.

Lemma PickleSerializer_raises_only_Exception pickler unpickler :
  (∀ v e, pickler v = Raise e → is_Exception e = true) →
  (∀ o e, unpickler o = Raise e → is_Exception e = true) →
  raises_only_Exception (PickleSerializer pickler unpickler).
Proof.
  intros Hp Hu. split; simpl.
  - intros v e. destruct (pickler v) as [|e'] eqn:Hv; simpl; [done|].
    rewrite (Hp v e' Hv). by intros [= <-].
  - intros o e. destruct (unpickler o) as [|e'] eqn:Ho; simpl; [done|].
    rewrite (Hu o e' Ho). by intros [= <-].
Qed.

Lemma bytes_codec_raises_only_Exception : raises_only_Exception bytes_codec.
Proof.
  apply PickleSerializer_raises_only_Exception.
  - intros [] e; simpl; by intros [= <-].
  - intros [] e; simpl; by intros [= <-].
Qed.

Lemma consistent_before_middle_scope : consistent before_middle_scope.
Proof. split; [done|]. by eexists _, _. Qed.

End more_serializers.

(** ** Blocks of caller code: consequences *)

Section blocks.
Import SqlLiteHappyStore.

Lemma consistent_enter_scope self :
  consistent self → consistent (enter_scope self).2.
Proof.
  destruct self as [ser [t tx] flag lvl]. unfold consistent. simpl.
  destruct flag; simpl.
  - intros [Hlvl (image & sps & ->)]. simpl. split; [lia|]. by eexists _, _.
  - intros [-> ->]. simpl. split; [done|]. by eexists _, _.
Qed.

Lemma serializer_enter_scope self :
  _serializer (enter_scope self).2 = _serializer self.
Proof.
  destruct self as [ser [t tx] flag lvl]. unfold enter_scope. simpl.
  destruct flag; simpl; unfold execute, on_connection; simpl;
    by destruct tx.
Qed.

Lemma run_raises b self e :
  consistent self → raises_only_Exception (_serializer self) →
  (run b self).1 = Raise e → is_Exception e = true.
Proof.
  intros Hc Hser. destruct (_is_already_in_txn self) eqn:Hflag.
  - pose proof Hc as Hc'. unfold consistent in Hc'. rewrite Hflag in Hc'.
    destruct Hc' as [Hlvl (image & sps & Htx)].
    destruct (run_inside b self image sps Hflag Hlvl Htx Hser)
      as (_ & _ & _ & _ & He).
    apply He.
  - destruct (run_outside b self Hc Hflag Hser) as [_ He]. apply He.
Qed.

(** A block with no [with] statement in it changes nothing of the
    instance but the rows. *)
Lemma run_flat_effect b :
  ∀ self, flat b = true → consistent self →
    ∃ t, (run b self).2 = with_rows t self.
Proof.
  induction b as [op| |tag|b1 IH1 b2 IH2|body IH|body IH1 handler IH2];
    intros self Hflat Hc; simpl in Hflat.
  - by apply call_effect.
  - exists (rows_of self). by rewrite with_rows_same.
  - exists (rows_of self). by rewrite with_rows_same.
  - apply andb_true_iff in Hflat as [Hf1 Hf2].
    destruct (IH1 self Hf1 Hc) as [t1 Ht1]. simpl. unfold mbind, M_bind.
    destruct (run b1 self) as [[[]|e] s1]; simpl in *; [|by eauto].
    subst s1.
    destruct (IH2 _ Hf2 (consistent_with_rows t1 self Hc)) as [t2 Ht2].
    exists t2. by rewrite Ht2, with_rows_with_rows.
  - done.
  - apply andb_true_iff in Hflat as [Hf1 Hf2].
    destruct (IH1 self Hf1 Hc) as [t1 Ht1]. simpl. unfold try_except.
    destruct (run body self) as [[[]|e] s1]; simpl in *; [by eauto|].
    destruct (is_Exception e); [|by eauto]. subst s1.
    destruct (IH2 _ Hf2 (consistent_with_rows t1 self Hc)) as [t2 Ht2].
    exists t2. by rewrite Ht2, with_rows_with_rows.
Qed.

End blocks.

(** ** Transactions around arbitrary caller code *)

Section transactions_in_general.
Import SqlLiteHappyStore.

Lemma run_in_nested_scope body self image sps :
  _is_already_in_txn self = true →
  (0 ≤ _txn_nesting_level self)%Z →
  Sqlite.txn (_sqlite_connection self) = Sqlite.InTransaction false image sps →
  raises_only_Exception (_serializer self) →
  kept_inside image (("txn", rows_of self) :: sps)
              (_txn_nesting_level self + 1) (_serializer self)
              (run body (enter_scope self).2).
Proof.
  intros Hflag Hlvl Htx Hser.
  destruct (enter_scope_inside self image sps Hflag Htx)
    as (Hf & Hl & Hs & Ht).
  pose proof (run_inside body (enter_scope self).2 image
                (("txn", rows_of self) :: sps)
                Hf ltac:(lia) Ht ltac:(by rewrite Hs)) as Hbody.
  by rewrite Hl, Hs in Hbody.
Qed.









End transactions_in_general.

(** ** Point and bulk operations *)

Section operations.
Import Sqlite SqlLiteHappyStore.

Lemma mapM_result_first_raise {A B} (f : A → result B) l1 x l2 e :
  (∀ y, y ∈ l1 → ∃ b, f y = Ok b) → f x = Raise e →
  mapM f (l1 ++ x :: l2) = Raise e.
Proof.
  intros Hl1 Hx. induction l1 as [|y l1 IH]; simpl.
  - by rewrite Hx.
  - destruct (Hl1 y) as [b Hy]; [by left|]. rewrite Hy. simpl.
    rewrite IH; [done|]. intros y' Hy'. apply Hl1. by right.
Qed.

Lemma sets_in_sequence pairs :
  ∀ kbs self,
    consistent self →
    mapM (λ kv : string * pyobj,
            b ← serialize (_serializer self) kv.2; mret (kv.1, b)) pairs
      = Ok kbs →
    foldl (λ s kv, (set kv.1 kv.2 s).2) self pairs
    = with_rows (foldl (λ t kv, <[kv.1 := kv.2]> t) (rows_of self) kbs) self.
Proof.
  induction pairs as [|kv pairs IH]; intros kbs self Hc Hm; simpl in *.
  - injection Hm as <-. simpl. by rewrite with_rows_same.
  - destruct (serialize (_serializer self) kv.2) as [b|] eqn:Hs; [|done].
    simpl in Hm.
    destruct (mapM _ pairs) as [kbs'|] eqn:Hm'; [|done].
    simpl in Hm. injection Hm as <-.
    rewrite (set_spec kv.1 kv.2 b self Hc Hs). simpl.
    rewrite (IH kbs' (with_rows (<[kv.1 := b]> (rows_of self)) self)).
    + by rewrite rows_of_with_rows, with_rows_with_rows.
    + by apply consistent_with_rows.
    + by rewrite serializer_with_rows.
Qed.

Lemma deletes_in_sequence keys :
  ∀ self,
    consistent self →
    foldl (λ s key, (delete key s).2) self keys
    = with_rows (foldl (λ t key, base.delete key t) (rows_of self) keys) self.
Proof.
  induction keys as [|key keys IH]; intros self Hc; simpl.
  - by rewrite with_rows_same.
  - rewrite delete_spec by done. simpl.
    rewrite IH by by apply consistent_with_rows.
    by rewrite rows_of_with_rows, with_rows_with_rows.
Qed.

Lemma lookup_deletes keys :
  ∀ (t : table) k,
    foldl (λ t key, base.delete key t) t keys !! k
    = if bool_decide (k ∈ keys) then None else t !! k.
Proof.
  induction keys as [|key keys IH]; intros t k; simpl; [done|].
  rewrite IH. destruct (decide (k ∈ keys)) as [Hin|Hnin].
  - rewrite !bool_decide_eq_true_2; [done|by right|done].
  - rewrite (bool_decide_eq_false_2 (k ∈ keys)) by done.
    destruct (decide (k = key)) as [->|Hne].
    + rewrite bool_decide_eq_true_2 by by left. apply lookup_delete_eq.
    + rewrite bool_decide_eq_false_2.
      * by apply lookup_delete_ne.
      * intros [?|?]%elem_of_cons; done.
Qed.

Lemma scan_from_state fuel :
  ∀ next_key pagesize self,
    consistent self → (- 2 ^ 63 ≤ pagesize + 1 ≤ 2 ^ 63 - 1)%Z →
    (scan_from fuel next_key pagesize self).2 = self.
Proof.
  induction fuel as [|fuel IH]; intros next_key pagesize self Hc Hfits;
    [done|].
  simpl. rewrite transaction_fetch_page by done.
  destruct (_ <? _)%Z.
  - by destruct (decode_pairs _ _).
  - destruct (last _) as [[k v]|]; [|done].
    destruct (decode_pairs _ _); [|done].
    specialize (IH k pagesize self Hc Hfits).
    by destruct (scan_from fuel k pagesize self) as [[??]?].
Qed.





(** X7.  Values are serialized before anything is written: when one
    value of the list given to [bulk_set] does not serialize, the call
    raises the serializer's exception and the whole engine state is as
    before, the pairs in front of the failing one included; likewise for
    [set]. *)
Theorem failed_serialization_writes_nothing
    (pairs1 pairs2 : list (string * pyobj)) (kv : string * pyobj) (e : exn)
    (self : happystore) :
  consistent self →
  (∀ kv', kv' ∈ pairs1 → ∃ b, serialize (_serializer self) kv'.2 = Ok b) →
  serialize (_serializer self) kv.2 = Raise e →
  bulk_set (pairs1 ++ kv :: pairs2) self = (Raise e, self) ∧
  set kv.1 kv.2 self = (Raise e, self).
Proof.
  intros Hc Hok Hbad. split.
  - rewrite bulk_set_effect by done.
    rewrite (mapM_result_first_raise _ pairs1 kv pairs2 e); [done| |].
    + intros kv' Hin. destruct (Hok kv' Hin) as [b ->]. by eexists.
    + by rewrite Hbad.
  - rewrite set_effect by done. by rewrite Hbad.
Qed.

Lemma failed_serialization_writes_nothing_witness :
  consistent example_store ∧
  serialize (_serializer example_store) PyNone = Raise SerializationError ∧
  bulk_set [("x", PyBytes "1"); ("y", PyNone); ("z", PyBytes "3")]
           example_store
  = (Raise SerializationError, example_store).
Proof.
  split; [apply consistent_init|]. split; [reflexivity|].
  refine (proj1 (failed_serialization_writes_nothing
                   [("x", PyBytes "1")] [("z", PyBytes "3")] ("y", PyNone)
                   SerializationError example_store
                   (consistent_init _ _) _ eq_refl)).
  intros kv' ->%list_elem_of_singleton. by eexists.
Defined.







(** X11.  Reading changes nothing: [get], [has], [bulk_get], [query] and
    a [scan] (with a page size whose successor fits a 64-bit INTEGER),
    run as far as one likes, leave the whole engine state (rows,
    transaction, savepoints, nesting level) exactly as it was, whether
    they return or raise, inside a [with] block or outside one where they
    open and close a transaction of their own. *)
Theorem reads_change_nothing (self : happystore) :
  consistent self →
  (∀ key, (get key self).2 = self) ∧
  (∀ key, (has key self).2 = self) ∧
  (∀ keys, (bulk_get keys self).2 = self) ∧
  (∀ keyprefix start end_ limit_ reverse_,
     (HappyStore.query keyprefix start end_ limit_ reverse_ self).2 = self) ∧
  (∀ fuel pagesize, (- 2 ^ 63 ≤ pagesize + 1 ≤ 2 ^ 63 - 1)%Z →
     (HappyStore.scan fuel pagesize self).2 = self).
Proof.
  intros Hc. repeat split.
  - intros key. by apply engine_get_effect.
  - intros key. by rewrite has_spec.
  - intros keys. by rewrite bulk_get_spec.
  - intros. by apply engine_query_effect.
  - intros fuel pagesize Hfits. by apply scan_from_state.
Qed.

Lemma reads_change_nothing_witness :
  consistent before_middle_scope ∧
  (get "zz" before_middle_scope).2 = before_middle_scope ∧
  (HappyStore.scan 3 1 before_middle_scope).2 = before_middle_scope.
Proof.
  split; [apply consistent_before_middle_scope|].
  pose proof (reads_change_nothing before_middle_scope
                consistent_before_middle_scope) as (H1 & _ & _ & _ & H5).
  split; [exact (H1 "zz")|exact (H5 3 1%Z ltac:(lia))].
Defined.

End operations.

(** ** Queries through the public class *)

Section more_queries.
Import Sqlite SqlLiteHappyStore.

Lemma take_while_all {A} (p : A → bool) (l : list A) :
  forallb p l = true → take_while p l = l.
Proof.
  induction l as [|x l IH]; simpl; [done|].
  intros [-> Hl]%andb_true_iff. by rewrite IH.
Qed.

Lemma pattern_compare_plain (bp s : list N) :
  forallb plain_byte bp = true →
  pattern_compare (bp ++ [37%N]) s = starts_with_nocase bp s.
Proof.
  revert s. induction bp as [|c bp IH]; intros s Hbp.
  - simpl app. rewrite pattern_any_matches. by destruct s.
  - simpl in Hbp. apply andb_true_iff in Hbp as [Hc Hbp].
    unfold plain_byte in Hc.
    apply andb_true_iff in Hc as [[H37 H95]%andb_true_iff _].
    apply negb_true_iff in H37, H95.
    change ((c :: bp) ++ [37%N]) with (c :: (bp ++ [37%N])).
    cbn [pattern_compare starts_with_nocase]. rewrite H37, H95.
    destruct s as [|c2 s]; [done|]. by rewrite IH.
Qed.

Lemma char_match_NUL c : c ≠ 0%N → char_match c 0 = false.
Proof.
  intros Hc. unfold char_match, tolower.
  rewrite bool_decide_eq_false_2 by done. simpl.
  rewrite bool_decide_eq_false_2; [done|].
  destruct ((65 <=? c)%N && (c <=? 90)%N); simpl; lia.
Qed.

Lemma starts_with_nocase_c_str (bp l : list N) :
  forallb plain_byte bp = true →
  starts_with_nocase bp (take_while (λ b, bool_decide (b ≠ 0%N)) l)
  = starts_with_nocase bp l.
Proof.
  revert l. induction bp as [|c bp IH]; intros l Hbp; [done|].
  simpl in Hbp. apply andb_true_iff in Hbp as [Hc Hbp].
  destruct l as [|c2 l]; [done|]. simpl.
  destruct (decide (c2 = 0%N)) as [->|Hc2].
  - rewrite bool_decide_eq_false_2 by (by intros ?). simpl.
    rewrite char_match_NUL; [done|].
    unfold plain_byte in Hc. apply andb_true_iff in Hc as [_ Hc].
    apply negb_true_iff, bool_decide_eq_false in Hc. done.
  - rewrite bool_decide_eq_true_2 by done. simpl. by rewrite IH.
Qed.

(** For a prefix with no wildcard and no NUL, [key LIKE prefix || '%']
    says that the key starts with the prefix up to the case of ASCII
    letters. *)
Lemma like_plain p k :
  plain_prefix p = true →
  like k (p +:+ "%") = starts_with_nocase (bytes_of p) (bytes_of k).
Proof.
  intros Hp. unfold like, c_str. rewrite bytes_app.
  change (Ascii.N_of_ascii <$> String.list_ascii_of_string p)
    with (bytes_of p).
  change (Ascii.N_of_ascii <$> String.list_ascii_of_string "%")
    with [37%N].
  rewrite (take_while_all _ (bytes_of p ++ [37%N])).
  - rewrite pattern_compare_plain by done.
    by apply starts_with_nocase_c_str.
  - rewrite forallb_app. apply andb_true_iff. split; [|done].
    unfold plain_prefix in Hp. rewrite forallb_forall in *.
    intros c Hc. specialize (Hp c Hc). unfold plain_byte in Hp.
    apply andb_true_iff in Hp as [_ Hp].
    apply negb_true_iff, bool_decide_eq_false in Hp.
    by apply bool_decide_eq_true.
Qed.

Lemma char_match_caseless c c2 :
  letter c = false → char_match c c2 = bool_decide (c = c2).
Proof.
  unfold letter, char_match, tolower. intros Hc.
  destruct (decide (c = c2)) as [->|Hne].
  - by rewrite bool_decide_eq_true_2.
  - rewrite (bool_decide_eq_false_2 (c = c2)) by done. simpl.
    rewrite bool_decide_eq_false_2; [done|].
    apply orb_false_iff in Hc as [Hup Hlow].
    rewrite Hup.
    destruct ((65 <=? c2)%N && (c2 <=? 90)%N) eqn:Hup2; [|done].
    intros ->. apply andb_true_iff in Hup2 as [H1 H2].
    apply N.leb_le in H1, H2.
    apply andb_false_iff in Hlow as [Hl|Hl]; apply N.leb_gt in Hl; lia.
Qed.

Lemma N_of_ascii_inj a b : Ascii.N_of_ascii a = Ascii.N_of_ascii b → a = b.
Proof.
  intros H. rewrite <-(Ascii.ascii_N_embedding a), <-(Ascii.ascii_N_embedding b).
  by rewrite H.
Qed.

(** Without ASCII letters in the prefix that is: the key starts with the
    prefix. *)
Lemma starts_with_caseless p k :
  caseless p = true →
  starts_with_nocase (bytes_of p) (bytes_of k) = String.prefix p k.
Proof.
  revert k. induction p as [|a p IH]; intros k Hp; [by destruct k|].
  destruct k as [|a' k]; [done|].
  unfold caseless in Hp. simpl in Hp.
  apply andb_true_iff in Hp as [Ha Hp]. apply negb_true_iff in Ha.
  change (bytes_of (String a p)) with (Ascii.N_of_ascii a :: bytes_of p).
  change (bytes_of (String a' k)) with (Ascii.N_of_ascii a' :: bytes_of k).
  simpl. rewrite char_match_caseless by done. rewrite IH by done.
  destruct (Ascii.ascii_dec a a') as [->|Hne].
  - by rewrite bool_decide_eq_true_2.
  - rewrite bool_decide_eq_false_2; [done|].
    intros H. by apply Hne, N_of_ascii_inj.
Qed.

Lemma selected_rows (P : string → bool) (t : table) :
  let selected := filter (λ kv, P kv.1) (merge_sort key_le (map_to_list t)) in
  StronglySorted (λ k1 k2, String.le k1 k2 ∧ k1 ≠ k2) selected.*1 ∧
  (∀ k b, (k, b) ∈ selected ↔ t !! k = Some b ∧ P k = true).
Proof.
  intros selected. split.
  - apply strictly_ascending.
    + apply StronglySorted_filter, ascending_sorted.
    + unfold selected.
      assert (∀ l : list (string * string),
                NoDup l.*1 → NoDup (filter (λ kv, P kv.1) l).*1) as Hnd.
      { induction l as [|x l IHl]; [done|]. rewrite fmap_cons.
        inversion_clear 1 as [|?? Hx Hl]. rewrite filter_cons.
        destruct (decide _); [|by apply IHl].
        rewrite fmap_cons. constructor; [|by apply IHl].
        intros (y & Hy1 & [_ Hy2]%list_elem_of_filter)%list_elem_of_fmap.
        apply Hx. rewrite Hy1. by apply list_elem_of_fmap_2. }
      apply Hnd, NoDup_ascending_keys.
  - intros k b. unfold selected.
    rewrite list_elem_of_filter, elem_of_ascending. simpl.
    rewrite Is_true_true. tauto.
Qed.





End more_queries.

(** ** [scan] against [query], and outside the page sizes it is made for *)

Section more_scanning.
Import Sqlite SqlLiteHappyStore.

Lemma ascending_rows_nil self : ascending_rows self = [] ↔ rows_of self = ∅.
Proof.
  unfold ascending_rows. split.
  - intros Hnil. apply map_size_empty_iff.
    rewrite <-length_map_to_list, <-(ascending_perm (rows_of self)).
    by rewrite Hnil.
  - intros ->. by rewrite map_to_list_empty.
Qed.

Lemma bind_int_outside n :
  (n < - 2 ^ 63 ∨ 2 ^ 63 - 1 < n)%Z → bind_int n = Raise OverflowError.
Proof.
  intros [Hn|Hn]; [|by apply bind_int_beyond].
  unfold bind_int.
  by assert ((n <? - 2 ^ 63)%Z = true) as -> by (apply Z.ltb_lt; lia).
Qed.

(** The page at a row of the table starts with that row. *)
Lemma page_at_row self (before after : list (string * string)) x :
  ascending_rows self = before ++ x :: after →
  filter (λ kv, String.leb x.1 kv.1) (ascending_rows self) = x :: after.
Proof.
  intros Hsplit. rewrite Hsplit. apply filter_from_cursor.
  - rewrite <-Hsplit. apply ascending_sorted.
  - rewrite <-Hsplit. apply NoDup_ascending_keys.
Qed.

Lemma page_from_start self :
  filter (λ kv, String.leb "" kv.1) (ascending_rows self)
  = ascending_rows self.
Proof. apply filter_all. intros kv _. apply Is_true_true, empty_string_least. Qed.

(** A page of one row that is kept as the cursor: the loop stays where it
    is. *)
Lemma scan_stuck self pagesize x (before after : list (string * string)) :
  consistent self →
  (- 2 ^ 63 ≤ pagesize + 1 ≤ 2 ^ 63 - 1)%Z →
  ascending_rows self = before ++ x :: after →
  limit (pagesize + 1) (x :: after) = [x] →
  (pagesize + 1 ≤ 1)%Z →
  ∀ fuel, scan_from fuel x.1 pagesize self = ([], Looping, self).
Proof.
  intros Hc Hfits Hsplit Hpage Hsmall.
  pose proof (page_at_row self before after x Hsplit) as Hfilter.
  destruct x as [k v]. cbn [fst] in *.
  induction fuel as [|fuel IH]; [done|].
  cbn [scan_from]. rewrite transaction_fetch_page by done.
  rewrite Hfilter, Hpage.
  assert ((Z.of_nat (length [(k, v)]) <? pagesize + 1)%Z = false) as ->
    by (apply Z.ltb_ge; simpl; lia).
  cbn -[scan_from]. by rewrite IH.
Qed.

(** X14.  [scan] agrees with [query]: when [query(start='')] returns, a
    [scan] with a page size between 1 and 2^63 - 2 run to its end (any
    fuel above the number of rows) yields exactly the list that [query]
    returned, in the same order, and leaves the engine as it was. *)
Theorem scan_agrees_with_query (self : happystore) (pagesize : Z)
    (decoded : list (string * pyobj)) (fuel : nat) :
  consistent self → (1 ≤ pagesize ≤ 2 ^ 63 - 2)%Z →
  size (rows_of self) < fuel →
  HappyStore.query None (Some "") None None false self = (Ok decoded, self) →
  HappyStore.scan fuel pagesize self = (decoded, Exhausted, self).
Proof.
  intros Hc Hps Hfuel Hquery.
  unfold HappyStore.query in Hquery. simpl in Hquery.
  rewrite query_spec in Hquery by done.
  rewrite range_query_rows in Hquery by (left; done).
  cbn in Hquery.
  assert (filter (λ kv : string * string, in_range (Some "") None kv.1)
                 (ascending_rows self) = ascending_rows self) as Hall.
  { apply filter_all. intros kv _. unfold in_range.
    by rewrite empty_string_least. }
  rewrite Hall in Hquery. injection Hquery as Hdec.
  unfold HappyStore.scan, scan.
  apply (scan_from_spec self pagesize Hc (proj1 Hps) ltac:(lia)
           (size (rows_of self)) [] (ascending_rows self)); try done.
  - unfold ascending_rows. rewrite ascending_perm.
    by rewrite length_map_to_list.
  - apply page_from_start.
Qed.

Lemma scan_agrees_with_query_witness :
  consistent example_store ∧ (1 ≤ 2 ≤ 2 ^ 63 - 2)%Z ∧
  size (rows_of example_store) < 5 ∧
  HappyStore.query None (Some "") None None false example_store
  = (Ok [("a", PyBytes "5"); ("ab", PyBytes "10"); ("abc", PyBytes "15");
         ("c", PyBytes "3")], example_store) ∧
  HappyStore.scan 5 2 example_store
  = ([("a", PyBytes "5"); ("ab", PyBytes "10"); ("abc", PyBytes "15");
      ("c", PyBytes "3")], Exhausted, example_store).
Proof.
  assert (Hc : consistent example_store) by apply consistent_init.
  assert (Hps : (1 ≤ 2 ≤ 2 ^ 63 - 2)%Z) by lia.
  assert (Hf : size (rows_of example_store) < 5) by (vm_compute; lia).
  assert (Hq : HappyStore.query None (Some "") None None false example_store
               = (Ok [("a", PyBytes "5"); ("ab", PyBytes "10");
                      ("abc", PyBytes "15"); ("c", PyBytes "3")],
                  example_store)) by (vm_compute; reflexivity).
  split; [exact Hc|]. split; [exact Hps|]. split; [exact Hf|].
  split; [exact Hq|].
  exact (scan_agrees_with_query example_store 2 _ 5 Hc Hps Hf Hq).
Defined.

(** X15.  [scan] with a page size of zero: on a store with no row it ends
    at once, having yielded nothing; on every store with at least one row
    it yields nothing and never ends, for the cursor stays on the first
    key. *)
Theorem scan_pagesize_zero (self : happystore) :
  consistent self →
  (rows_of self = ∅ →
   ∀ fuel, HappyStore.scan (S fuel) 0 self = ([], Exhausted, self)) ∧
  (rows_of self ≠ ∅ →
   ∀ fuel, HappyStore.scan fuel 0 self = ([], Looping, self)).
Proof.
  intros Hc. unfold HappyStore.scan, scan. split.
  - intros Hempty fuel. apply ascending_rows_nil in Hempty.
    cbn [scan_from]. rewrite transaction_fetch_page by (done || lia).
    by rewrite Hempty.
  - intros Hrows [|fuel]; [done|].
    destruct (ascending_rows self) as [|x rest] eqn:Hasc.
    { by apply ascending_rows_nil in Hasc. }
    cbn [scan_from]. rewrite transaction_fetch_page by (done || lia).
    rewrite page_from_start, Hasc. destruct x as [k v].
    pose proof (scan_stuck self 0 (k, v) [] rest Hc ltac:(lia) Hasc
                  eq_refl ltac:(lia) fuel) as Hstuck.
    cbn [fst] in Hstuck.
    change (limit (0 + 1) ((k, v) :: rest)) with [(k, v)].
    cbn -[scan_from]. by rewrite Hstuck.
Qed.

Lemma scan_pagesize_zero_witness :
  consistent query_test_store ∧ rows_of query_test_store ≠ ∅ ∧
  HappyStore.scan 7 0 query_test_store = ([], Looping, query_test_store).
Proof.
  assert (Hc : consistent query_test_store) by apply consistent_init.
  assert (Hr : rows_of query_test_store ≠ ∅).
  { intros H. apply (f_equal (λ t : table, t !! "a")) in H.
    vm_compute in H. discriminate. }
  split; [exact Hc|]. split; [exact Hr|].
  exact (proj2 (scan_pagesize_zero query_test_store Hc) Hr 7).
Defined.

(** X16.  [scan] with a negative page size.  With -1 the LIMIT is 0, the
    page is empty and [page[-1]] raises IndexError, on every store.  With
    less than -1 (down to -2^63 - 1) the LIMIT is negative, which SQLite
    reads as no limit: on a store with no row [page[-1]] raises
    IndexError; on a store with rows, [scan] yields every row but the
    last one (when the serializer decodes them) and then never ends, the
    cursor staying on the last key. *)
Theorem scan_negative_pagesize (self : happystore) (pagesize : Z) :
  consistent self → (- 2 ^ 63 ≤ pagesize + 1 < 1)%Z →
  (pagesize = (-1)%Z ∨ rows_of self = ∅ →
   ∀ fuel, HappyStore.scan (S fuel) pagesize self
           = ([], Raised IndexError, self)) ∧
  (pagesize < -1 →
   ∀ front last_row decoded,
     ascending_rows self = front ++ [last_row] →
     decode_pairs (_serializer self) front = Ok decoded →
     ∀ fuel, HappyStore.scan (S fuel) pagesize self
             = (decoded, Looping, self))%Z.
Proof.
  intros Hc Hps. unfold HappyStore.scan, scan. split.
  - intros Hcase fuel. cbn [scan_from].
    rewrite transaction_fetch_page by (done || lia).
    rewrite page_from_start.
    assert (limit (pagesize + 1) (ascending_rows self) = []) as ->.
    { destruct Hcase as [->|Hempty]; [done|].
      apply ascending_rows_nil in Hempty. rewrite Hempty.
      unfold limit. by destruct (_ <? _)%Z; [|rewrite take_nil]. }
    simpl.
    by assert ((Z.of_nat 0 <? pagesize + 1)%Z = false) as ->
      by (apply Z.ltb_ge; lia).
  - intros Hneg front last_row decoded Hasc Hdec fuel. cbn [scan_from].
    rewrite transaction_fetch_page by (done || lia).
    rewrite page_from_start, Hasc.
    assert (∀ l : list (string * string), limit (pagesize + 1) l = l) as Hall.
    { intros l. unfold limit.
      by assert ((pagesize + 1 <? 0)%Z = true) as -> by (apply Z.ltb_lt; lia). }
    rewrite Hall.
    assert ((Z.of_nat (length (front ++ [last_row])) <? pagesize + 1)%Z
            = false) as -> by (apply Z.ltb_ge; lia).
    rewrite last_snoc. destruct last_row as [k v].
    rewrite removelast_last, Hdec.
    pose proof (scan_stuck self pagesize (k, v) front [] Hc ltac:(lia) Hasc
                  (Hall _) ltac:(lia) fuel) as Hstuck.
    cbn [fst] in Hstuck. rewrite Hstuck.
    by rewrite app_nil_r.
Qed.

Lemma scan_negative_pagesize_witness :
  consistent query_test_store ∧ (- 2 ^ 63 ≤ -3 + 1 < 1)%Z ∧
  HappyStore.scan 1 (-1) query_test_store
  = ([], Raised IndexError, query_test_store) ∧
  HappyStore.scan 9 (-3) query_test_store
  = ([("a", PyBytes "1"); ("ab", PyBytes "2")], Looping, query_test_store).
Proof.
  assert (Hc : consistent query_test_store) by apply consistent_init.
  assert (Hps : (- 2 ^ 63 ≤ -3 + 1 < 1)%Z) by lia.
  split; [exact Hc|]. split; [exact Hps|].
  split; [vm_compute; reflexivity|].
  refine (proj2 (scan_negative_pagesize query_test_store (-3) Hc Hps)
            ltac:(lia) [("a", "1"); ("ab", "2")] ("c", "3") _ _ _ 8).
  - vm_compute. reflexivity.
  - reflexivity.
Defined.

(** X17.  [scan] with a page size whose successor does not fit SQLite's
    64-bit INTEGER (2^63 - 1 and above, or below -2^63 - 1): binding the
    LIMIT raises OverflowError on the first page, nothing is yielded, and
    the rows are as before; outside every [with] block the whole engine
    state is as before. *)
Theorem scan_pagesize_overflow (self : happystore) (pagesize : Z)
    (fuel : nat) :
  consistent self →
  (pagesize + 1 < - 2 ^ 63 ∨ 2 ^ 63 - 1 < pagesize + 1)%Z →
  let out := HappyStore.scan (S fuel) pagesize self in
  out.1 = ([], Raised OverflowError) ∧
  rows_of out.2 = rows_of self ∧
  (_is_already_in_txn self = false → out.2 = self).
Proof.
  intros Hc Hps. unfold HappyStore.scan, scan. cbn [scan_from].
  destruct (scope_rollback_exact (fetch_page "" pagesize) self OverflowError
              (rows_of (enter_scope self).2) Hc) as (Hr & Hrows & Hroot);
    [|done|].
  { unfold fetch_page, on_connection. rewrite bind_int_outside by done.
    rewrite with_rows_same. by destruct (enter_scope self).2. }
  destruct (transaction (fetch_page "" pagesize) self) as [r s].
  simpl in *. subst r. simpl. by repeat split.
Qed.

Lemma scan_pagesize_overflow_witness :
  consistent example_store ∧
  (2 ^ 63 - 1 + 1 < - 2 ^ 63 ∨ 2 ^ 63 - 1 < 2 ^ 63 - 1 + 1)%Z ∧
  HappyStore.scan 1 (2 ^ 63 - 1) example_store
  = ([], Raised OverflowError, example_store).
Proof.
  assert (Hc : consistent example_store) by apply consistent_init.
  assert (Hps : (2 ^ 63 - 1 + 1 < - 2 ^ 63 ∨ 2 ^ 63 - 1 < 2 ^ 63 - 1 + 1)%Z)
    by (right; lia).
  split; [exact Hc|]. split; [exact Hps|].
  pose proof (scan_pagesize_overflow example_store (2 ^ 63 - 1) 0 Hc Hps)
    as H.
  cbv zeta in H. destruct H as (H1 & _ & H3).
  destruct (HappyStore.scan 1 (2 ^ 63 - 1) example_store) as [r s].
  simpl in *. rewrite H1. by rewrite (H3 eq_refl).
Defined.

End more_scanning.

(** ** The type checks of the public class *)

Section facade.

Lemma check_key_not_str key :
  type_of key ≠ TStr →
  HappyStore.check_key key
  = Raise (TypeError ("key must be a str, not "
                      +:+ HappyStore.str_of_type (type_of key))).
Proof. by destruct key. Qed.

Lemma check_keys_str (keys : list string) :
  ∀ key, key ∈ (PyStr <$> keys) → ∃ k, HappyStore.check_key key = Ok k.
Proof. intros key (k & -> & _)%list_elem_of_fmap. by eexists. Qed.

(** X18.  The public methods that take keys reject a key that is not a
    [str] with TypeError, naming its type, before anything is read or
    written: the engine state is untouched, whatever state it is in.  For
    the bulk methods the first such key of the list decides, and the keys
    in front of it are not read, written or deleted either. *)
Theorem facade_rejects_non_str_keys (key : pyobj) (self : happystore) :
  type_of key ≠ TStr →
  let e := TypeError ("key must be a str, not "
                      +:+ HappyStore.str_of_type (type_of key)) in
  HappyStore.get key self = (Raise e, self) ∧
  HappyStore.has key self = (Raise e, self) ∧
  (∀ value, HappyStore.set key value self = (Raise e, self)) ∧
  HappyStore.delete key self = (Raise e, self) ∧
  (∀ (before : list string) after,
     HappyStore.bulk_get ((PyStr <$> before) ++ key :: after) self
       = (Raise e, self) ∧
     HappyStore.bulk_delete ((PyStr <$> before) ++ key :: after) self
       = (Raise e, self)) ∧
  (∀ (before : list (string * pyobj)) value after,
     HappyStore.bulk_set
       (((λ kv, (PyStr kv.1, kv.2)) <$> before) ++ (key, value) :: after) self
     = (Raise e, self)).
Proof.
  intros Hkey e. pose proof (check_key_not_str key Hkey) as Hcheck.
  fold e in Hcheck.
  unfold HappyStore.get, HappyStore.has, HappyStore.set, HappyStore.delete,
    HappyStore.bulk_get, HappyStore.bulk_delete, HappyStore.bulk_set.
  rewrite !lift_bind, Hcheck.
  split; [done|]. split; [done|]. split; [done|]. split; [done|]. split.
  - intros before after. rewrite !lift_bind.
    rewrite (mapM_result_first_raise _ (PyStr <$> before) key after e
               (check_keys_str before) Hcheck).
    by split.
  - intros before value after. rewrite lift_bind.
    rewrite (mapM_result_first_raise _ _ (key, value) after e); [done| |].
    + intros kv' (kv & -> & _)%list_elem_of_fmap. by eexists.
    + simpl. by rewrite Hcheck.
Qed.

Lemma facade_rejects_non_str_keys_witness :
  type_of (PyInt 3) ≠ TStr ∧
  HappyStore.get (PyInt 3) example_store
  = (Raise (TypeError "key must be a str, not <class 'int'>"),
     example_store) ∧
  HappyStore.bulk_set [(PyStr "x", PyBytes "1"); (PyInt 3, PyBytes "2")]
                      example_store
  = (Raise (TypeError "key must be a str, not <class 'int'>"),
     example_store).
Proof.
  assert (Hk : type_of (PyInt 3) ≠ TStr) by discriminate.
  split; [exact Hk|].
  pose proof (facade_rejects_non_str_keys (PyInt 3) example_store Hk) as H.
  cbv zeta in H. destruct H as (H1 & _ & _ & _ & _ & H6).
  split; [exact H1|].
  exact (H6 [("x", PyBytes "1")] (PyBytes "2") []).
Defined.

(** X19.  The argument checks of [query] and [scan] in the public class.
    When [keyprefix], [start] or [end] is neither a [str] nor None,
    [query] raises NameError and not the TypeError it is about to build:
    the message reads the name [key], which is bound nowhere.  The same
    goes for a [pagesize] that is not an [int] in [scan].  With
    well-typed arguments, a prefix given together with a bound raises
    RuntimeError.  In all three cases the engine is not touched, whatever
    state it is in. *)
Theorem query_and_scan_argument_checks :
  (∀ self keyprefix start end_ limit_ reverse_,
     type_of keyprefix ∉ [TStr; TNoneType] ∨
     type_of start ∉ [TStr; TNoneType] ∨
     type_of end_ ∉ [TStr; TNoneType] →
     HappyStore.query_of keyprefix start end_ limit_ reverse_ self
     = (Raise (NameError "key"), self)) ∧
  (∀ self p start end_ limit_ reverse_,
     type_of start ∈ [TStr; TNoneType] →
     type_of end_ ∈ [TStr; TNoneType] →
     start ≠ PyNone ∨ end_ ≠ PyNone →
     HappyStore.query_of (PyStr p) start end_ limit_ reverse_ self
     = (Raise (RuntimeError "only supply keyprefix, or start and end"),
        self)) ∧
  (∀ self fuel pagesize,
     type_of pagesize ≠ TInt →
     HappyStore.scan_of fuel pagesize self
     = ([], SqlLiteHappyStore.Raised (NameError "key"), self)).
Proof.
  assert (Hin : ∀ x, type_of x ∈ [TStr; TNoneType] →
                  ∃ o, HappyStore.check_str_or_None x = Ok o
                       ∧ (x ≠ PyNone → o ≠ None)).
  { intros [] Hx; simpl in Hx; try (eexists; split; [done|done]);
      by repeat (apply elem_of_cons in Hx as [Hx|Hx]; [done|]);
         apply elem_of_nil in Hx. }
  assert (Hout : ∀ x, type_of x ∉ [TStr; TNoneType] →
                   HappyStore.check_str_or_None x = Raise (NameError "key")).
  { intros [] Hx; simpl in *; try done; exfalso; apply Hx;
      repeat constructor. }
  assert (Hany : ∀ x, (∃ o, HappyStore.check_str_or_None x = Ok o)
                      ∨ HappyStore.check_str_or_None x
                        = Raise (NameError "key")).
  { intros []; simpl; eauto. }
  split; [|split].
  - intros self keyprefix start end_ limit_ reverse_ Hbad.
    unfold HappyStore.query_of. rewrite lift_bind.
    destruct (Hany keyprefix) as [[kp Hkp]| ->]; [|done]. rewrite Hkp.
    rewrite lift_bind.
    destruct (Hany start) as [[st Hst]| ->]; [|done]. rewrite Hst.
    rewrite lift_bind.
    destruct (Hany end_) as [[en Hen]| ->]; [|done].
    destruct Hbad as [Hbad|[Hbad|Hbad]]; apply Hout in Hbad; congruence.
  - intros self p start end_ limit_ reverse_ Hstart Hend Hgiven.
    unfold HappyStore.query_of. rewrite lift_bind. simpl.
    destruct (Hin start Hstart) as (st & -> & Hst).
    destruct (Hin end_ Hend) as (en & -> & Hen).
    rewrite !lift_bind. unfold HappyStore.query.
    rewrite bool_decide_eq_true_2 by done. simpl.
    destruct Hgiven as [H|H].
    + by rewrite (bool_decide_eq_true_2 (st ≠ None)) by auto.
    + rewrite (bool_decide_eq_true_2 (en ≠ None)) by auto.
      by rewrite orb_true_r.
  - intros self fuel pagesize Hps. unfold HappyStore.scan_of.
    by destruct pagesize.
Qed.

End facade.

(** ** The store with each of the shipped serializers, and the limit on
    the size of a batch *)

Section stores.
Import Sqlite SqlLiteHappyStore.

(** A comprehension whose items either succeed or raise [e] raises [e] as
    soon as one of them does. *)
Lemma mapM_result_some_raise {A B} (f : A → result B) l x e :
  (∀ y, y ∈ l → f y = Raise e ∨ ∃ b, f y = Ok b) →
  x ∈ l → f x = Raise e → mapM f l = Raise e.
Proof.
  intros Hall Hin Hx. induction Hin as [x l|x y l Hin IH]; simpl.
  - by rewrite Hx.
  - destruct (Hall y) as [->|[b ->]]; [by left|done|]. simpl.
    rewrite IH; [done| |done]. intros z Hz. apply Hall. by right.
Qed.

(** X20.  A store built with the shipped [JsonSerializer] can hold
    nothing: since the module never imports [json], every [set] and every
    [bulk_set] of a non-empty list raises SerializationError and writes
    nothing, and [get] of a key that is in the file (written with another
    serializer) raises DeserializationError. *)
Theorem JsonSerializer_store_holds_nothing (self : happystore) :
  consistent self → _serializer self = JsonSerializer →
  (∀ key value, set key value self = (Raise SerializationError, self)) ∧
  (∀ pairs, pairs ≠ [] →
     bulk_set pairs self = (Raise SerializationError, self)) ∧
  (∀ key, is_Some (rows_of self !! key) →
     get key self = (Raise DeserializationError, self)).
Proof.
  intros Hc Hser. split; [|split].
  - intros key value. rewrite set_effect by done. by rewrite Hser.
  - intros [|kv pairs] Hne; [done|].
    rewrite bulk_set_effect by done. by rewrite Hser.
  - intros key [b Hb]. rewrite get_spec by done. by rewrite Hb, Hser.
Qed.

Lemma JsonSerializer_store_holds_nothing_witness :
  consistent (__init__ example_rows JsonSerializer) ∧
  set "k" (PyInt 1) (__init__ example_rows JsonSerializer)
  = (Raise SerializationError, __init__ example_rows JsonSerializer) ∧
  get "a" (__init__ example_rows JsonSerializer)
  = (Raise DeserializationError, __init__ example_rows JsonSerializer).
Proof.
  assert (Hc : consistent (__init__ example_rows JsonSerializer))
    by apply consistent_init.
  split; [exact Hc|].
  pose proof (JsonSerializer_store_holds_nothing _ Hc eq_refl)
    as (H1 & _ & H3).
  split; [exact (H1 "k" (PyInt 1))|].
  apply H3. by eexists.
Defined.







End stores.
